(** * web_server: the in-memory key-value store behind the HTTP handlers

    The repository holds two revisions of [main.go].  Both declare the same
    [Server] struct (a mutex, a [map[string]string], an [int] request counter
    and a shutdown channel) and the same four handlers plus a background
    worker; they differ in where the counter is bumped, in the guards in front
    of the critical sections and in the texts that are printed.  The two
    revisions are embedded side by side, as modules [Rev1] and [Rev2], over a
    common model of the Go data they share. *)

From Stdlib Require Import ZArith String Ascii List Lia.
From stdpp Require Import base gmap sets list strings fin_maps pretty.

Local Open Scope Z_scope.

(** ** Go's [int] *)

(** The counter is a Go [int]: 64 bits on the 64-bit targets, two's
    complement, and [++] wraps around silently. *)
Definition int_bits : Z := 64.
Definition max_int : Z := 2 ^ (int_bits - 1) - 1.
Definition min_int : Z := - 2 ^ (int_bits - 1).

Definition wrap_int (z : Z) : Z :=
  (z + 2 ^ (int_bits - 1)) mod 2 ^ int_bits - 2 ^ (int_bits - 1).

Definition int_range (z : Z) : Prop := min_int <= z <= max_int.

(** ** Maps are references *)

(** A Go map value is a reference to a table: [make] allocates a table that
    nothing else points to, [m[k] = v] and [delete(m, k)] update the table in
    place, and every holder of the reference sees the update.  The heap below
    holds the tables; an address stands for a map value. *)
Abbreviation addr := positive (only parsing).

Abbreviation Heap := (gmap positive (gmap string string)) (only parsing).

(** The table behind a map value. *)
Definition table (h : Heap) (m : addr) : gmap string string :=
  default ∅ (h !! m).

(** [make(map[string]string)] *)
Definition make_map (h : Heap) : Heap * addr :=
  let m := fresh (dom h) in (<[m := ∅]> h, m).

(** [m[k] = v] *)
Definition map_assign (m : addr) (k v : string) (h : Heap) : Heap :=
  <[m := <[k := v]> (table h m)]> h.

(** [delete(m, k)] *)
Definition map_delete (m : addr) (k : string) (h : Heap) : Heap :=
  <[m := delete k (table h m)]> h.

(** [v, ok := m[k]] *)
Definition map_index (m : addr) (k : string) (h : Heap) : option string :=
  table h m !! k.

(** [len(m)] *)
Definition map_len (m : addr) (h : Heap) : Z :=
  Z.of_nat (size (table h m)).

(** [for k, v := range src { dst[k] = v }], the entries of [src] given in the
    order the iteration visits them. *)
Fixpoint assign_all (dst : addr) (kvs : list (string * string)) (h : Heap) : Heap :=
  match kvs with
  | [] => h
  | (k, v) :: rest => assign_all dst rest (map_assign dst k v h)
  end.

(** ** The server *)

(** [type Server struct]: the mutex is the atomicity of the critical sections
    below, the shutdown channel belongs to the worker. *)
Record Server := mkServer {
  data : addr;
  requests : Z
}.

(** The shared memory the goroutines work on. *)
Record World := mkWorld {
  heap : Heap;
  server : Server
}.

(** What the store holds: the table behind [s.data]. *)
Definition entries (w : World) : gmap string string :=
  table (heap w) (data (server w)).

(** Every map value in use is allocated: [s.data] was made by [NewServer]. *)
Definition wf (w : World) : Prop := data (server w) ∈ dom (heap w).

Definition with_heap (h : Heap) (w : World) : World :=
  mkWorld h (server w).

(** [NewServer], run on the heap [h]. *)
Definition NewServer_on (h : Heap) : World :=
  let '(h', m) := make_map h in mkWorld h' (mkServer m 0).

Definition NewServer : World := NewServer_on ∅.

(** ** Requests and responses *)

(** What the handlers read of a [*http.Request].  [Body] is the outcome of
    [json.NewDecoder(r.Body).Decode(&payload)]: [None] when it returns an
    error, the decoded mapping otherwise. *)
Record Request := mkRequest {
  Method : string;
  URLPath : string;
  PathValue_key : string;
  Body : option (gmap string string)
}.

Inductive Content :=
  | Text (msg : string)
  | JsonStrings (m : gmap string string)
  | JsonInts (m : gmap string Z).

Record Response := mkResponse {
  status : Z;
  content : Content
}.

Definition StatusOK : Z := 200.
Definition StatusBadRequest : Z := 400.
Definition StatusNotFound : Z := 404.
Definition StatusMethodNotAllowed : Z := 405.

Definition MethodGet : string := "GET".
Definition MethodPost : string := "POST".
Definition MethodDelete : string := "DELETE".

(** [http.Error(w, msg, code)] *)
Definition http_Error (msg : string) (code : Z) : Response :=
  mkResponse code (Text msg).

(** [json.NewEncoder(w).Encode(m)] on a fresh writer: status 200. *)
Definition encode_strings (m : gmap string string) : Response :=
  mkResponse StatusOK (JsonStrings m).

Definition encode_ints (m : gmap string Z) : Response :=
  mkResponse StatusOK (JsonInts m).

(** The 4xx class. *)
Definition client_error (r : Response) : Prop := 400 <= status r < 500.

(** [strings.Split(s, "/")]: the pieces between the slashes, never empty. *)
Fixpoint Split_slash (s : string) : list string :=
  match s with
  | EmptyString => [EmptyString]
  | String c rest =>
      if Ascii.eqb c "/"%char then EmptyString :: Split_slash rest
      else match Split_slash rest with
           | [] => [String c EmptyString]
           | p :: ps => String c p :: ps
           end
  end.

(** ** Goroutines *)

(** A handler is a sequence of steps on the shared memory.  What runs between
    [s.mu.Lock()] and [s.mu.Unlock()] is one step, [Critical]: the mutex keeps
    every other critical section out of it.  [Local] is a step outside the
    lock.  Each step hands a value to the rest of the handler. *)
Inductive Prog (A : Type) : Type :=
  | Ret (a : A)
  | Critical {B : Type} (c : World -> World * B) (k : B -> Prog A)
  | Local {B : Type} (c : World -> World * B) (k : B -> Prog A).

Arguments Ret {A} a.
Arguments Critical {A B} c k.
Arguments Local {A B} c k.

(** One goroutine alone. *)
Fixpoint run {A} (p : Prog A) (w : World) : World * A :=
  match p with
  | Ret a => (w, a)
  | Critical c k => let '(w', b) := c w in run (k b) w'
  | Local c k => let '(w', b) := c w in run (k b) w'
  end.

(** One goroutine among others: before each of its steps the rest of the
    process has changed the shared memory by the next function of [env]
    (nothing once [env] is used up). *)
Fixpoint run_among {A} (env : list (World -> World)) (p : Prog A) (w : World)
  : World * A :=
  match p with
  | Ret a => (w, a)
  | Critical c k =>
      let '(w', b) := c (hd id env w) in run_among (tl env) (k b) w'
  | Local c k =>
      let '(w', b) := c (hd id env w) in run_among (tl env) (k b) w'
  end.

(** The number of times a handler takes the lock. *)
Fixpoint lock_count {A} (p : Prog A) (w : World) : nat :=
  match p with
  | Ret _ => O
  | Critical c k => let '(w', b) := c w in S (lock_count (k b) w')
  | Local c k => let '(w', b) := c w in lock_count (k b) w'
  end.

Definition set_requests (n : Z) (w : World) : World :=
  mkWorld (heap w) (mkServer (data (server w)) n).

(** [s.requests++] *)
Definition bump (w : World) : World :=
  set_requests (wrap_int (requests (server w) + 1)) w.

(** The cases of the worker's [select]. *)
Inductive Case := TickerC | ShutdownCh.

(** What the worker's [select] waits on: whether [ticker.C] holds a tick and
    whether [s.shutdownCh] has been closed. *)
Record Chans := mkChans {
  tick_waiting : bool;
  shutdown_closed : bool
}.

(** A case can proceed when its receive would not block; [select] takes one
    of the cases that can proceed. *)
Definition can_proceed (ch : Chans) (c : Case) : bool :=
  match c with
  | TickerC => tick_waiting ch
  | ShutdownCh => shutdown_closed ch
  end.

(** Receiving takes the tick out of [ticker.C]; a closed channel stays
    closed. *)
Definition receive (ch : Chans) (c : Case) : Chans :=
  match c with
  | TickerC => mkChans false (shutdown_closed ch)
  | ShutdownCh => ch
  end.

(** ** Goroutines side by side *)

(** One step of a goroutine; a finished one stays as it is. *)
Definition step_thread {A} (p : Prog A) (w : World) : World * Prog A :=
  match p with
  | Ret a => (w, Ret a)
  | Critical c k => let '(w', b) := c w in (w', k b)
  | Local c k => let '(w', b) := c w in (w', k b)
  end.

(** The goroutines of [pool] taking their steps in the order [sched] gives:
    each number picks the goroutine that moves next. *)
Fixpoint interleave {A} (sched : list nat) (pool : list (Prog A)) (w : World)
  : World * list (Prog A) :=
  match sched with
  | [] => (w, pool)
  | i :: rest =>
      match pool !! i with
      | None => interleave rest pool w
      | Some p =>
          let '(w', p') := step_thread p w in
          interleave rest (<[i := p']> pool) w'
      end
  end.

Definition finished {A} (p : Prog A) : bool :=
  match p with Ret _ => true | _ => false end.

(** The counter after [n] increments. *)
Definition bumped (n : nat) (z : Z) : Z :=
  Nat.iter n (fun z => wrap_int (z + 1)) z.

(** [counts n p]: on every path, from every memory, what is left of the
    goroutine [p] increments the counter [n] times in all, and does nothing
    else to it. *)
Fixpoint counts {A} (n : nat) (p : Prog A) : Prop :=
  match p with
  | Ret _ => n = O
  | Critical c k | Local c k =>
      forall w : World, exists d : nat,
        (d <= n)%nat /\
        requests (server (c w).1) = bumped d (requests (server w)) /\
        counts (n - d)%nat (k (c w).2)
  end.

(** ** The running process *)

(** The process as the worker sees it: the two channels, the shared memory,
    whether the worker's loop is still running and what it has printed. *)
Record Sys := mkSys {
  chans : Chans;
  mem : World;
  worker_live : bool;
  printed : list string
}.

(** What happens in the process: the ticker fires, [main] closes
    [shutdownCh], the worker's [select] takes a case, a handler serves a
    request. *)
Inductive Event :=
  | TickFires
  | CloseShutdown
  | Select (c : Case)
  | Serve (h : Prog Response).

Section Worker.

(** One turn of the worker's loop, for the case its [select] took: what it
    prints, and whether the loop goes on. *)
Variable turn : Case -> Prog (string * bool).

(** A [select] on a case that cannot proceed, or by a worker that has
    returned, does not happen: nothing changes. *)
Definition step (e : Event) (s : Sys) : Sys :=
  match e with
  | TickFires =>
      mkSys (mkChans true (shutdown_closed (chans s)))
            (mem s) (worker_live s) (printed s)
  | CloseShutdown =>
      mkSys (mkChans (tick_waiting (chans s)) true)
            (mem s) (worker_live s) (printed s)
  | Select c =>
      if worker_live s && can_proceed (chans s) c then
        let '(w, (out, again)) := run (turn c) (mem s) in
        mkSys (receive (chans s) c) w again (printed s ++ [out])
      else s
  | Serve h =>
      mkSys (chans s) (fst (run h (mem s))) (worker_live s) (printed s)
  end.

Fixpoint run_events (es : list Event) (s : Sys) : Sys :=
  match es with
  | [] => s
  | e :: rest => run_events rest (step e s)
  end.

End Worker.

(** The process after [main] has started the worker. *)
Definition started (w : World) : Sys := mkSys (mkChans false false) w true [].

(** ** Sequences of store operations *)

Inductive Op :=
  | OpPut (payload : gmap string string)
  | OpGetAll
  | OpDelete (key : string)
  | OpStats.

(** * The first revision *)
Module Rev1.

(** [func (s *Server) incRequests()]: a critical section of its own. *)
Definition incRequests (w : World) : World * unit := (bump w, tt).

(** [postDataHandler], the section that writes the payload into [s.data]. *)
Definition merge_payload (payload : gmap string string) (w : World)
  : World * unit :=
  (with_heap (assign_all (data (server w)) (map_to_list payload) (heap w)) w, tt).

(** [getDataHandler], the section that builds [copyData]. *)
Definition copy_data (w : World) : World * addr :=
  let '(h, copyData) := make_map (heap w) in
  (with_heap (assign_all copyData (map_to_list (table h (data (server w)))) h) w,
   copyData).

(** [deleteDataHandler], the section that looks [key] up and deletes it. *)
Definition delete_key (key : string) (w : World) : World * bool :=
  match map_index (data (server w)) key (heap w) with
  | Some _ => (with_heap (map_delete (data (server w)) key (heap w)) w, true)
  | None => (w, false)
  end.

(** [statsHandler] and the worker, the section that reads [req] and [size]. *)
Definition read_stats (w : World) : World * (Z * Z) :=
  (w, (requests (server w), map_len (data (server w)) (heap w))).

Definition postDataHandler (r : Request) : Prog Response :=
  Critical incRequests (fun _ =>
  match Body r with
  | None => Ret (http_Error "failed json" StatusBadRequest)
  | Some payload =>
      Critical (merge_payload payload) (fun _ =>
      Ret (encode_strings {[ "status" := "ok" ]}))
  end).

Definition getDataHandler (r : Request) : Prog Response :=
  Critical incRequests (fun _ =>
  Critical copy_data (fun copyData =>
  Local (fun w => (w, table (heap w) copyData)) (fun m =>
  Ret (encode_strings m)))).

Definition deleteDataHandler (r : Request) : Prog Response :=
  Critical incRequests (fun _ =>
  let key := PathValue_key r in
  if String.eqb key "" then Ret (http_Error "missing key" StatusNotFound)
  else
    Critical (delete_key key) (fun exists_ =>
    if negb exists_ then Ret (http_Error "key not found" StatusNotFound)
    else Ret (encode_strings {[ "deleted" := key ]}))).

Definition statsHandler (r : Request) : Prog Response :=
  Critical incRequests (fun _ =>
  Critical read_stats (fun '(req, size) =>
  Ret (encode_ints (<["requests" := req]> (<["db_size" := size]> ∅))))).

(** [fmt.Printf("Current requests: %d, Database size: %d\n", req, size)] *)
Definition status_line (req size : Z) : string :=
  "Current requests: " +:+ pretty req +:+ ", Database size: " +:+ pretty size
  +:+ String "010" "".

(** [fmt.Println("Worker stopped")] *)
Definition stop_notice : string := "Worker stopped" +:+ String "010" "".

(** One turn of the worker's loop, for the case its [select] took: what it
    prints, and whether the loop goes on. *)
Definition worker_turn (c : Case) : Prog (string * bool) :=
  match c with
  | TickerC =>
      Critical read_stats (fun '(req, size) => Ret (status_line req size, true))
  | ShutdownCh => Ret (stop_notice, false)
  end.

(** [startBackgroundWorker]: the worker in the running process. *)
Definition startBackgroundWorker : list Event -> Sys -> Sys :=
  run_events worker_turn.

(** The store operations, as the handlers perform them on a request that
    passes their checks. *)
Definition Put (payload : gmap string string) : Prog unit :=
  Critical incRequests (fun _ => Critical (merge_payload payload) Ret).

Definition GetAll : Prog addr :=
  Critical incRequests (fun _ => Critical copy_data Ret).

Definition Delete (key : string) : Prog bool :=
  Critical incRequests (fun _ => Critical (delete_key key) Ret).

Definition Stats : Prog (Z * Z) :=
  Critical incRequests (fun _ => Critical read_stats Ret).

(** A store operation run for its effect on the shared memory. *)
Definition exec (o : Op) (w : World) : World :=
  match o with
  | OpPut payload => fst (run (Put payload) w)
  | OpGetAll => fst (run GetAll w)
  | OpDelete key => fst (run (Delete key) w)
  | OpStats => fst (run Stats w)
  end.

Definition exec_all (ops : list Op) (w : World) : World :=
  foldl (fun w o => exec o w) w ops.

End Rev1.

(** * The second revision *)
Module Rev2.

(** [func (s *Server) incRequests()]: no lock of its own, every call is
    made with [s.mu] held. *)
Definition incRequests (w : World) : World := bump w.

(** [postDataHandler], the critical section. *)
Definition merge_payload (payload : gmap string string) (w : World)
  : World * unit :=
  (incRequests
     (with_heap (assign_all (data (server w)) (map_to_list payload) (heap w)) w),
   tt).

(** [getDataHandler], the critical section. *)
Definition copy_data (w : World) : World * addr :=
  let w1 := incRequests w in
  let '(h, copyData) := make_map (heap w1) in
  (with_heap (assign_all copyData (map_to_list (table h (data (server w1)))) h) w1,
   copyData).

(** [deleteDataHandler], the critical section. *)
Definition delete_key (key : string) (w : World) : World * bool :=
  let w1 := incRequests w in
  match map_index (data (server w1)) key (heap w1) with
  | Some _ => (with_heap (map_delete (data (server w1)) key (heap w1)) w1, true)
  | None => (w1, false)
  end.

(** [statsHandler], the critical section: the counter and the size as they
    go into the [stats] map. *)
Definition read_stats (w : World) : World * (Z * Z) :=
  let w1 := incRequests w in
  (w1, (requests (server w1), map_len (data (server w1)) (heap w1))).

Definition postDataHandler (r : Request) : Prog Response :=
  if negb (String.eqb (Method r) MethodPost) then
    Ret (http_Error "Method not allowed" StatusMethodNotAllowed)
  else
    match Body r with
    | None => Ret (http_Error "Invalid JSON" StatusBadRequest)
    | Some payload =>
        Critical (merge_payload payload) (fun _ =>
        Ret (encode_strings {[ "status" := "ok" ]}))
    end.

Definition getDataHandler (r : Request) : Prog Response :=
  if negb (String.eqb (Method r) MethodGet) then
    Ret (http_Error "Method not allowed" StatusMethodNotAllowed)
  else
    Critical copy_data (fun copyData =>
    Local (fun w => (w, table (heap w) copyData)) (fun m =>
    Ret (encode_strings m))).

Definition deleteDataHandler (r : Request) : Prog Response :=
  if negb (String.eqb (Method r) MethodDelete) then
    Ret (http_Error "Method not allowed" StatusMethodNotAllowed)
  else
    let parts := Split_slash (URLPath r) in
    if (length parts <? 4)%nat || String.eqb (nth 3 parts "") "" then
      Ret (http_Error "Key not specified" StatusBadRequest)
    else
      let key := nth 3 parts "" in
      Critical (delete_key key) (fun ok =>
      if negb ok then Ret (http_Error "Key not found" StatusNotFound)
      else Ret (encode_strings {[ "deleted" := key ]})).

Definition statsHandler (r : Request) : Prog Response :=
  if negb (String.eqb (Method r) MethodGet) then
    Ret (http_Error "Method not allowed" StatusMethodNotAllowed)
  else
    Critical read_stats (fun '(req, size) =>
    Ret (encode_ints (<["total_requests" := req]> (<["db_size" := size]> ∅)))).

(** [fmt.Printf("Current Requests: %d, Database size: %d\n", ...)] *)
Definition status_line (req size : Z) : string :=
  "Current Requests: " +:+ pretty req +:+ ", Database size: " +:+ pretty size
  +:+ String "010" "".

(** [fmt.Println("Worker Stopped")] *)
Definition stop_notice : string := "Worker Stopped" +:+ String "010" "".

(** One turn of the worker's loop; the line is printed with the lock held. *)
Definition worker_turn (c : Case) : Prog (string * bool) :=
  match c with
  | TickerC =>
      Critical (fun w => (w, status_line (requests (server w))
                                         (map_len (data (server w)) (heap w))))
               (fun out => Ret (out, true))
  | ShutdownCh => Ret (stop_notice, false)
  end.

(** [startBackgroundWorker]: the worker in the running process. *)
Definition startBackgroundWorker : list Event -> Sys -> Sys :=
  run_events worker_turn.

(** The store operations: the critical sections of the handlers. *)
Definition Put (payload : gmap string string) : Prog unit :=
  Critical (merge_payload payload) Ret.

Definition GetAll : Prog addr := Critical copy_data Ret.

Definition Delete (key : string) : Prog bool := Critical (delete_key key) Ret.

Definition Stats : Prog (Z * Z) := Critical read_stats Ret.

(** A store operation run for its effect on the shared memory. *)
Definition exec (o : Op) (w : World) : World :=
  match o with
  | OpPut payload => fst (run (Put payload) w)
  | OpGetAll => fst (run GetAll w)
  | OpDelete key => fst (run (Delete key) w)
  | OpStats => fst (run Stats w)
  end.

Definition exec_all (ops : list Op) (w : World) : World :=
  foldl (fun w o => exec o w) w ops.

End Rev2.

(** * Either revision *)

Inductive Revision := First | Second.

(** The store operations and the handlers of a revision. *)
Module Store.

Definition Put (v : Revision) : gmap string string -> Prog unit :=
  match v with First => Rev1.Put | Second => Rev2.Put end.

Definition GetAll (v : Revision) : Prog addr :=
  match v with First => Rev1.GetAll | Second => Rev2.GetAll end.

Definition Delete (v : Revision) : string -> Prog bool :=
  match v with First => Rev1.Delete | Second => Rev2.Delete end.

Definition Stats (v : Revision) : Prog (Z * Z) :=
  match v with First => Rev1.Stats | Second => Rev2.Stats end.

Definition exec (v : Revision) : Op -> World -> World :=
  match v with First => Rev1.exec | Second => Rev2.exec end.

Definition exec_all (v : Revision) : list Op -> World -> World :=
  match v with First => Rev1.exec_all | Second => Rev2.exec_all end.

End Store.

Definition postDataHandler (v : Revision) : Request -> Prog Response :=
  match v with First => Rev1.postDataHandler | Second => Rev2.postDataHandler end.

Definition getDataHandler (v : Revision) : Request -> Prog Response :=
  match v with First => Rev1.getDataHandler | Second => Rev2.getDataHandler end.

Definition deleteDataHandler (v : Revision) : Request -> Prog Response :=
  match v with First => Rev1.deleteDataHandler | Second => Rev2.deleteDataHandler end.

Definition statsHandler (v : Revision) : Request -> Prog Response :=
  match v with First => Rev1.statsHandler | Second => Rev2.statsHandler end.

(** The key a revision takes from the path of a DELETE request: the first
    reads the wildcard of its route, the second the fourth piece of the
    path (nothing when there are fewer). *)
Definition path_key (v : Revision) (r : Request) : string :=
  match v with
  | First => PathValue_key r
  | Second => nth 3 (Split_slash (URLPath r)) ""
  end.

Definition worker_turn (v : Revision) : Case -> Prog (string * bool) :=
  match v with First => Rev1.worker_turn | Second => Rev2.worker_turn end.

Definition status_line (v : Revision) : Z -> Z -> string :=
  match v with First => Rev1.status_line | Second => Rev2.status_line end.

Definition stop_notice (v : Revision) : string :=
  match v with First => Rev1.stop_notice | Second => Rev2.stop_notice end.

Definition startBackgroundWorker (v : Revision) : list Event -> Sys -> Sys :=
  match v with
  | First => Rev1.startBackgroundWorker
  | Second => Rev2.startBackgroundWorker
  end.

(** * An end-to-end run *)

Definition payload_xy : gmap string string := <["x" := "1"]> (<["y" := "2"]> ∅).

(** [Put({x:1, y:2}); GetAll(); Delete(x); GetAll(); Stats()] on a new
    server: what the two [GetAll] return, what [Delete] returns, what [Stats]
    returns. *)
Definition scenario (v : Revision)
  : gmap string string * bool * gmap string string * (Z * Z) :=
  let '(w1, _) := run (Store.Put v payload_xy) NewServer in
  let '(w2, copy1) := run (Store.GetAll v) w1 in
  let '(w3, existed) := run (Store.Delete v "x") w2 in
  let '(w4, copy2) := run (Store.GetAll v) w3 in
  let '(w5, stats) := run (Store.Stats v) w4 in
  (table (heap w2) copy1, existed, table (heap w4) copy2, stats).

(** The same run as five HTTP requests, on the routes of the revision. *)
Definition scenario_requests (v : Revision) : list (Prog Response) :=
  let base := match v with First => "/data" | Second => "/api/data" end in
  let stats := match v with First => "/stats" | Second => "/api/stats" end in
  [ postDataHandler v (mkRequest MethodPost base "" (Some payload_xy));
    getDataHandler v (mkRequest MethodGet base "" None);
    deleteDataHandler v (mkRequest MethodDelete (base +:+ "/x") "x" None);
    getDataHandler v (mkRequest MethodGet base "" None);
    statsHandler v (mkRequest MethodGet stats "" None) ].

(** Handlers served one after the other: the memory they leave and their
    responses. *)
Fixpoint serve_all (hs : list (Prog Response)) (w : World)
  : World * list Response :=
  match hs with
  | [] => (w, [])
  | h :: rest =>
      let '(w1, r) := run h w in
      let '(w2, rs) := serve_all rest w1 in (w2, r :: rs)
  end.

(** * The rest of the program *)

(** [main] of the second revision: the function it registers on
    [/api/data]. *)
Definition api_data (r : Request) : Prog Response :=
  if String.eqb (Method r) MethodPost then Rev2.postDataHandler r
  else if String.eqb (Method r) MethodGet then Rev2.getDataHandler r
  else Ret (http_Error "Method not allowed" StatusMethodNotAllowed).

(** A request on its way to one of the four handlers. *)
Inductive Call :=
  | CallPost (r : Request)
  | CallGet (r : Request)
  | CallDelete (r : Request)
  | CallStats (r : Request).

Definition handler (v : Revision) (c : Call) : Prog Response :=
  match c with
  | CallPost r => postDataHandler v r
  | CallGet r => getDataHandler v r
  | CallDelete r => deleteDataHandler v r
  | CallStats r => statsHandler v r
  end.

(** The checks a handler of the second revision makes before it takes the
    lock: the method, and for POST the body, for DELETE the key. *)
Definition passes_checks (c : Call) : bool :=
  match c with
  | CallPost r =>
      String.eqb (Method r) MethodPost &&
      match Body r with Some _ => true | None => false end
  | CallGet r => String.eqb (Method r) MethodGet
  | CallDelete r =>
      String.eqb (Method r) MethodDelete &&
      negb (String.eqb (path_key Second r) "")
  | CallStats r => String.eqb (Method r) MethodGet
  end.

(** Whether a revision counts a call: the first counts every call, the
    second the calls that pass its checks. *)
Definition counted (v : Revision) (c : Call) : bool :=
  match v with First => true | Second => passes_checks c end.

Definition count_of (v : Revision) (c : Call) : nat :=
  if counted v c then 1%nat else O.

(** No slash in a string. *)
Fixpoint no_slash (s : string) : bool :=
  match s with
  | EmptyString => true
  | String c rest => negb (Ascii.eqb c "/"%char) && no_slash rest
  end.

(** The lines of the worker: status lines, then at most the notice. *)
Definition is_status_line (v : Revision) (l : string) : Prop :=
  exists req size, l = status_line v req size.

(** The requests served among the events of the process, in order. *)
Fixpoint served (es : list Event) (w : World) : World :=
  match es with
  | [] => w
  | Serve h :: rest => served rest (run h w).1
  | _ :: rest => served rest w
  end.

(** The critical sections other goroutines can run while a handler is
    between two of its steps: the sections of the handlers, one at a time
    (a section of the second revision is the increment and a section of the
    first, one after the other). *)
Inductive Atom :=
  | AIncrement
  | AMerge (payload : gmap string string)
  | ACopy
  | ADelete (key : string)
  | ARead.

Definition atom_run (a : Atom) (w : World) : World :=
  match a with
  | AIncrement => (Rev1.incRequests w).1
  | AMerge payload => (Rev1.merge_payload payload w).1
  | ACopy => (Rev1.copy_data w).1
  | ADelete key => (Rev1.delete_key key w).1
  | ARead => (Rev1.read_stats w).1
  end.

Definition others (atoms : list Atom) (w : World) : World :=
  foldl (fun w a => atom_run a w) w atoms.

(** * The routes of the first revision *)

(** [main] of the first revision registers its handlers on an
    [http.ServeMux] under the patterns [POST /data], [GET /data],
    [DELETE /data/{key}] and [GET /stats], and serves every request through
    it.  The wildcard [{key}] of net/http matches exactly one path segment,
    and a segment is never empty: the key it binds, if any, for a path. *)
Definition wildcard_key (path : string) : option string :=
  match Split_slash path with
  | [root; dir; key] =>
      if String.eqb root "" && String.eqb dir "data" && negb (String.eqb key "")
      then Some key else None
  | _ => None
  end.

(** The mux in front of the handlers, for a path in the form the mux leaves
    alone (it redirects the others before it matches): a pattern matches on
    its method and its path, [GET] also matching [HEAD]; the handler of
    [DELETE /data/{key}] gets the key the wildcard has bound as
    [r.PathValue("key")]; a request no pattern matches is answered by the
    mux itself, 405 when its path is that of a pattern for another method
    and 404 otherwise, and no handler runs. *)
Definition main_mux (r : Request) : Prog Response :=
  let reads := String.eqb (Method r) MethodGet || String.eqb (Method r) "HEAD" in
  if String.eqb (URLPath r) "/data" then
    if String.eqb (Method r) MethodPost then Rev1.postDataHandler r
    else if reads then Rev1.getDataHandler r
    else Ret (http_Error "Method Not Allowed" StatusMethodNotAllowed)
  else if String.eqb (URLPath r) "/stats" then
    if reads then Rev1.statsHandler r
    else Ret (http_Error "Method Not Allowed" StatusMethodNotAllowed)
  else
    match wildcard_key (URLPath r) with
    | Some key =>
        if String.eqb (Method r) MethodDelete
        then Rev1.deleteDataHandler (mkRequest (Method r) (URLPath r) key (Body r))
        else Ret (http_Error "Method Not Allowed" StatusMethodNotAllowed)
    | None => Ret (http_Error "404 page not found" StatusNotFound)
    end.



(** * Go's [int] arithmetic *)

Lemma wrap_int_range z : int_range (wrap_int z).
Proof.
  unfold int_range, wrap_int, min_int, max_int, int_bits.
  pose proof (Z.mod_pos_bound (z + 2 ^ (64 - 1)) (2 ^ 64) ltac:(lia)). lia.
Qed.

Lemma wrap_int_id z : int_range z -> wrap_int z = z.
Proof.
  unfold int_range, wrap_int, min_int, max_int, int_bits. intros H.
  rewrite Z.mod_small; lia.
Qed.

Lemma wrap_int_add_l a b : wrap_int (wrap_int a + b) = wrap_int (a + b).
Proof.
  unfold wrap_int, int_bits.
  replace (a + 2 ^ (64 - 1)) with (a + 2 ^ 63) by lia.
  replace ((a + 2 ^ 63) mod 2 ^ 64 - 2 ^ (64 - 1) + b + 2 ^ (64 - 1))
    with ((a + 2 ^ 63) mod 2 ^ 64 + b) by lia.
  rewrite Zplus_mod_idemp_l. f_equal. f_equal. lia.
Qed.

Lemma wrap_int_max : wrap_int (max_int + 1) = min_int.
Proof. reflexivity. Qed.

(** * The heap of maps *)

Lemma table_insert_eq (h : Heap) m t : table (<[m := t]> h) m = t.
Proof. unfold table. by rewrite lookup_insert_eq. Qed.

Lemma table_insert_ne (h : Heap) m m' t : m ≠ m' -> table (<[m := t]> h) m' = table h m'.
Proof. intros. unfold table. by rewrite lookup_insert_ne. Qed.

Lemma table_map_assign_eq h m k v : table (map_assign m k v h) m = <[k := v]> (table h m).
Proof. apply table_insert_eq. Qed.

Lemma table_map_assign_ne h m m' k v : m ≠ m' -> table (map_assign m k v h) m' = table h m'.
Proof. apply table_insert_ne. Qed.

Lemma table_map_delete_eq h m k : table (map_delete m k h) m = delete k (table h m).
Proof. apply table_insert_eq. Qed.

Lemma table_map_delete_ne h m m' k : m ≠ m' -> table (map_delete m k h) m' = table h m'.
Proof. apply table_insert_ne. Qed.

Lemma dom_map_assign h m k v : dom (map_assign m k v h) = {[m]} ∪ dom h.
Proof. unfold map_assign. by rewrite dom_insert_L. Qed.

Lemma dom_map_delete h m k : dom (map_delete m k h) = {[m]} ∪ dom h.
Proof. unfold map_delete. by rewrite dom_insert_L. Qed.

Lemma table_assign_all_ne kvs : forall h m m',
  m ≠ m' -> table (assign_all m kvs h) m' = table h m'.
Proof.
  induction kvs as [|[k v] rest IH]; intros h m m' Hne; simpl; [done|].
  rewrite IH by done. by apply table_map_assign_ne.
Qed.

Lemma dom_assign_all kvs : forall h m,
  m ∈ dom h -> dom (assign_all m kvs h) = dom h.
Proof.
  induction kvs as [|[k v] rest IHrest]; intros h m Hin; simpl; [done|].
  assert (Hd : dom (map_assign m k v h) = dom h).
  { rewrite dom_map_assign. apply subseteq_union_1_L.
    by apply singleton_subseteq_l. }
  rewrite IHrest; [done|]. by rewrite Hd.
Qed.

(** The loop writes every pair of the iteration; when no key comes twice,
    the order of the iteration does not show in the result. *)
Lemma table_assign_all kvs : forall h m,
  NoDup kvs.*1 ->
  table (assign_all m kvs h) m = list_to_map kvs ∪ table h m.
Proof.
  induction kvs as [|[k v] rest IH]; intros h m Hnd; simpl.
  - by rewrite (left_id_L ∅ (∪)).
  - apply NoDup_cons in Hnd as [Hk Hnd].
    rewrite IH by done. rewrite table_map_assign_eq.
    rewrite <- insert_union_r; [by rewrite insert_union_l|].
    by apply not_elem_of_list_to_map_1.
Qed.

Lemma table_assign_all_map (src : gmap string string) h m :
  table (assign_all m (map_to_list src) h) m = src ∪ table h m.
Proof.
  rewrite table_assign_all by apply NoDup_fst_map_to_list.
  by rewrite list_to_map_to_list.
Qed.

(** Whatever order the [range] loop takes the entries of [src] in. *)
Lemma table_assign_all_any_order (src : gmap string string) kvs h m :
  kvs ≡ₚ map_to_list src ->
  table (assign_all m kvs h) m = src ∪ table h m.
Proof.
  intros Hp. rewrite table_assign_all.
  - rewrite (list_to_map_proper kvs (map_to_list src)); try done.
    + by rewrite list_to_map_to_list.
    + rewrite Hp. apply NoDup_fst_map_to_list.
  - rewrite Hp. apply NoDup_fst_map_to_list.
Qed.

Lemma make_map_fresh h : (make_map h).2 ∉ dom h.
Proof. apply is_fresh. Qed.

Lemma make_map_table_new h : table (make_map h).1 (make_map h).2 = ∅.
Proof. apply table_insert_eq. Qed.

Lemma make_map_table_old h m : m ∈ dom h -> table (make_map h).1 m = table h m.
Proof.
  intros Hin. apply table_insert_ne. intros Heq. subst m.
  exact (is_fresh (dom h) Hin).
Qed.

Lemma make_map_dom h : dom (make_map h).1 = {[(make_map h).2]} ∪ dom h.
Proof. unfold make_map. simpl. by rewrite dom_insert_L. Qed.

(** * The store operations *)

(** Run alone, the two revisions do the same to the store: the first bumps
    the counter in a critical section of its own, the second inside the
    section of the operation. *)
Lemma Put_agree payload w : run (Rev1.Put payload) w = run (Rev2.Put payload) w.
Proof. reflexivity. Qed.

Lemma GetAll_agree w : run Rev1.GetAll w = run Rev2.GetAll w.
Proof. reflexivity. Qed.

Lemma Delete_agree key w : run (Rev1.Delete key) w = run (Rev2.Delete key) w.
Proof. reflexivity. Qed.

Lemma Stats_agree w : run Rev1.Stats w = run Rev2.Stats w.
Proof. reflexivity. Qed.

Lemma exec_agree o w : Rev1.exec o w = Rev2.exec o w.
Proof. by destruct o. Qed.

Lemma exec_all_agree ops : forall w, Rev1.exec_all ops w = Rev2.exec_all ops w.
Proof.
  induction ops as [|o ops IHops]; intros w; [done|].
  unfold Rev1.exec_all, Rev2.exec_all in *. simpl.
  rewrite exec_agree. apply IHops.
Qed.

(** What each operation leaves behind. *)
Lemma run_Put payload w :
  run (Rev2.Put payload) w =
  (mkWorld (assign_all (data (server w)) (map_to_list payload) (heap w))
           (mkServer (data (server w)) (wrap_int (requests (server w) + 1))), tt).
Proof. reflexivity. Qed.

Lemma run_GetAll w :
  run Rev2.GetAll w =
  (mkWorld (assign_all (make_map (heap w)).2
              (map_to_list (table (make_map (heap w)).1 (data (server w))))
              (make_map (heap w)).1)
           (mkServer (data (server w)) (wrap_int (requests (server w) + 1))),
   (make_map (heap w)).2).
Proof. reflexivity. Qed.

Lemma run_Delete key w :
  run (Rev2.Delete key) w =
  (mkWorld (if decide (is_Some (entries w !! key))
            then map_delete (data (server w)) key (heap w) else heap w)
           (mkServer (data (server w)) (wrap_int (requests (server w) + 1))),
   bool_decide (is_Some (entries w !! key))).
Proof.
  unfold Rev2.Delete, Rev2.delete_key, run, map_index, entries. simpl.
  destruct (table (heap w) (data (server w)) !! key) as [v|] eqn:E.
  - rewrite decide_True by eauto. by rewrite bool_decide_eq_true_2 by eauto.
  - rewrite decide_False by (by intros [? ?]).
    by rewrite bool_decide_eq_false_2 by (by intros [? ?]).
Qed.

Lemma run_Stats w :
  run Rev2.Stats w =
  (bump w, (wrap_int (requests (server w) + 1), Z.of_nat (size (entries w)))).
Proof. reflexivity. Qed.

Lemma entries_Put payload w :
  entries (run (Rev2.Put payload) w).1 = payload ∪ entries w.
Proof. rewrite run_Put. unfold entries. simpl. apply table_assign_all_map. Qed.

Lemma entries_Delete key w :
  entries (run (Rev2.Delete key) w).1 = delete key (entries w).
Proof.
  rewrite run_Delete. unfold entries at 1. simpl. case_decide as Hk.
  - apply table_map_delete_eq.
  - symmetry. apply delete_id. by apply eq_None_not_Some.
Qed.

Lemma entries_Stats w : entries (run Rev2.Stats w).1 = entries w.
Proof. reflexivity. Qed.

(** The copy that [GetAll] makes holds the entries of the store, and making
    it leaves the store's own table alone. *)
Lemma copy_GetAll w :
  wf w ->
  table (heap (run Rev2.GetAll w).1) (run Rev2.GetAll w).2 = entries w.
Proof.
  intros Hwf. rewrite run_GetAll. cbn [heap server data fst snd].
  rewrite table_assign_all_map, make_map_table_new, make_map_table_old by done.
  by rewrite (right_id_L ∅ (∪)).
Qed.

Lemma entries_GetAll w : entries (run Rev2.GetAll w).1 = entries w.
Proof.
  rewrite run_GetAll. unfold entries. cbn [heap server data fst snd].
  destruct (decide ((make_map (heap w)).2 = data (server w))) as [Heq|Hne].
  - assert (Hno : heap w !! data (server w) = None).
    { apply not_elem_of_dom. rewrite <- Heq. apply make_map_fresh. }
    assert (Ht : table (make_map (heap w)).1 (data (server w)) = ∅).
    { rewrite <- Heq. apply make_map_table_new. }
    rewrite Ht, map_to_list_empty. cbn [assign_all]. rewrite Ht.
    unfold table. by rewrite Hno.
  - rewrite table_assign_all_ne by done.
    by apply table_insert_ne.
Qed.

Lemma requests_exec o w :
  requests (server (Rev2.exec o w)) = wrap_int (requests (server w) + 1).
Proof.
  destruct o; unfold Rev2.exec;
    [by rewrite run_Put|by rewrite run_GetAll
    |by rewrite run_Delete|by rewrite run_Stats].
Qed.

Lemma data_exec o w : data (server (Rev2.exec o w)) = data (server w).
Proof.
  destruct o; unfold Rev2.exec;
    [by rewrite run_Put|by rewrite run_GetAll
    |by rewrite run_Delete|by rewrite run_Stats].
Qed.

(** No operation frees a map, and none touches a table other than the
    store's own and the one it has just made. *)
Lemma heap_exec o w m :
  wf w -> m ∈ dom (heap w) ->
  m ∈ dom (heap (Rev2.exec o w)) /\
  (m ≠ data (server w) -> table (heap (Rev2.exec o w)) m = table (heap w) m).
Proof.
  intros Hwf Hm. destruct o; unfold Rev2.exec.
  - rewrite run_Put. cbn [heap server data fst snd]. split.
    + by rewrite dom_assign_all.
    + intros Hne. by apply table_assign_all_ne.
  - rewrite run_GetAll. cbn [heap server data fst snd].
    assert (Hfr : (make_map (heap w)).2 ≠ m).
    { intros Heq. subst m. by apply (make_map_fresh (heap w)). }
    split.
    + rewrite dom_assign_all; rewrite make_map_dom; set_solver.
    + intros _. rewrite table_assign_all_ne by done.
      by apply make_map_table_old.
  - rewrite run_Delete. cbn [heap server data fst snd]. case_decide; split; try done.
    + rewrite dom_map_delete. set_solver.
    + intros Hne. by apply table_map_delete_ne.
  - rewrite run_Stats. by split.
Qed.

Lemma wf_exec o w : wf w -> wf (Rev2.exec o w).
Proof.
  intros Hwf. unfold wf. rewrite data_exec. by apply heap_exec.
Qed.

Lemma wf_NewServer : wf NewServer.
Proof. vm_compute. set_solver. Qed.

Lemma Store_exec_Second v o w : Store.exec v o w = Rev2.exec o w.
Proof. destruct v; [apply exec_agree|done]. Qed.

Lemma Store_exec_all_Second v ops w : Store.exec_all v ops w = Rev2.exec_all ops w.
Proof. destruct v; [apply exec_all_agree|done]. Qed.

Lemma Store_Put_Second v payload w :
  run (Store.Put v payload) w = run (Rev2.Put payload) w.
Proof. by destruct v. Qed.

Lemma Store_GetAll_Second v w : run (Store.GetAll v) w = run Rev2.GetAll w.
Proof. by destruct v. Qed.

Lemma Store_Delete_Second v key w :
  run (Store.Delete v key) w = run (Rev2.Delete key) w.
Proof. by destruct v. Qed.

Lemma Store_Stats_Second v w : run (Store.Stats v) w = run Rev2.Stats w.
Proof. by destruct v. Qed.

Lemma bump_below_max w :
  min_int <= requests (server w) < max_int ->
  wrap_int (requests (server w) + 1) = requests (server w) + 1.
Proof. intros H. apply wrap_int_id. unfold int_range. lia. Qed.

(** * Stats *)

(** The pair that [Stats] returns is read in one critical section: whatever
    the other goroutines do before each step of the handler, both numbers
    describe the memory that section left behind. *)
Lemma Stats_one_section v env w :
  (run_among env (Store.Stats v) w).2 =
  (requests (server (run_among env (Store.Stats v) w).1),
   map_len (data (server (run_among env (Store.Stats v) w).1))
           (heap (run_among env (Store.Stats v) w).1)).
Proof. by destruct v. Qed.

(** At the largest [int] the counter wraps: the count that [Stats] returns
    is the smallest [int], not the previous count plus one. *)
Lemma Stats_count_wraps :
  let w := set_requests max_int NewServer in
  (run (Store.Stats First) w).2 = (min_int, 0) /\
  (run (Store.Stats Second) w).2 = (min_int, 0) /\
  (run (Store.Stats Second) w).2.1 ≠ requests (server w) + 1.
Proof. vm_compute. by repeat split. Qed.

(** C1, below the largest [int]: in either revision [Stats] returns the
    counter after its own increment, one more than before the call, together
    with the number of entries; both are read in one critical section (they
    describe one state of the memory, also among other goroutines) and the
    entries are left as they were. *)
Theorem Stats_consistent_pair (v : Revision) (w : World) :
  min_int <= requests (server w) < max_int ->
  let '(w', (req, size)) := run (Store.Stats v) w in
  req = requests (server w) + 1 /\
  req = requests (server w') /\
  size = map_len (data (server w')) (heap w') /\
  size = Z.of_nat (base.size (entries w)) /\
  entries w' = entries w /\
  forall env,
    (run_among env (Store.Stats v) w).2 =
    (requests (server (run_among env (Store.Stats v) w).1),
     map_len (data (server (run_among env (Store.Stats v) w).1))
             (heap (run_among env (Store.Stats v) w).1)).
Proof.
  intros Hr. rewrite Store_Stats_Second, run_Stats.
  rewrite (bump_below_max w Hr).
  repeat split.
  - unfold bump, set_requests. simpl. by rewrite bump_below_max.
  - intros env. apply Stats_one_section.
Qed.

Lemma Stats_consistent_pair_witness :
  min_int <= requests (server NewServer) < max_int /\
  (run (Store.Stats First) NewServer).2 = (1, 0).
Proof.
  split; [by vm_compute|].
  pose proof (Stats_consistent_pair First NewServer ltac:(by vm_compute)) as H.
  destruct (run (Store.Stats First) NewServer) as [w' [req size]].
  destruct H as (-> & _ & _ & -> & _). reflexivity.
Defined.

(** * The end-to-end run *)

(** The run makes five calls, and [Stats] counts itself: it does not return
    4 requests. *)
Lemma scenario_stats_not_four :
  (scenario First).2 ≠ (4, 1) /\ (scenario Second).2 ≠ (4, 1).
Proof. vm_compute. split; discriminate. Qed.

(** C2, with the count the code gives: on a new server the first [GetAll]
    returns x:1, y:2, [Delete] of x returns true, the second [GetAll]
    returns y:2, and [Stats] returns 5 requests and 1 entry; the handlers
    answer the five requests accordingly. *)
Theorem scenario_run (v : Revision) :
  scenario v = (<["x" := "1"]> (<["y" := "2"]> ∅), true, <["y" := "2"]> ∅, (5, 1)) /\
  (serve_all (scenario_requests v) NewServer).2 =
  [ encode_strings {[ "status" := "ok" ]};
    encode_strings (<["x" := "1"]> (<["y" := "2"]> ∅));
    encode_strings {[ "deleted" := "x" ]};
    encode_strings (<["y" := "2"]> ∅);
    encode_ints (<[match v with First => "requests" | Second => "total_requests" end := 5]>
                   (<["db_size" := 1]> ∅)) ].
Proof. destruct v; vm_compute; split; reflexivity. Qed.

(** * The request counter *)

Lemma requests_exec_all ops : forall w,
  int_range (requests (server w)) ->
  requests (server (Rev2.exec_all ops w)) =
  wrap_int (requests (server w) + Z.of_nat (length ops)).
Proof.
  induction ops as [|o ops IHops]; intros w Hr.
  - simpl. rewrite Z.add_0_r. symmetry. by apply wrap_int_id.
  - change (Rev2.exec_all (o :: ops) w) with (Rev2.exec_all ops (Rev2.exec o w)).
    rewrite IHops; rewrite requests_exec; [|apply wrap_int_range].
    rewrite wrap_int_add_l. f_equal. rewrite length_cons. lia.
Qed.

(** One operation at the largest [int]: the counter is not one more than
    before, it has wrapped to the smallest [int]. *)
Lemma counter_wraps_at_max :
  let w := set_requests max_int NewServer in
  requests (server (Store.exec_all First [OpStats] w)) = min_int /\
  requests (server (Store.exec_all Second [OpStats] w)) = min_int /\
  requests (server (Store.exec_all Second [OpStats] w))
    ≠ requests (server w) + Z.of_nat (length [OpStats]).
Proof. vm_compute. by repeat split. Qed.

(** C3, as long as the counter stays within [int]: in either revision a
    sequence of N store operations, whatever they are, leaves the counter at
    its value before plus N; for one operation, plus 1. *)
Theorem counter_counts_operations (v : Revision) (ops : list Op) (w : World) :
  min_int <= requests (server w) ->
  requests (server w) + Z.of_nat (length ops) <= max_int ->
  requests (server (Store.exec_all v ops w)) =
  requests (server w) + Z.of_nat (length ops).
Proof.
  intros Hlo Hhi. rewrite Store_exec_all_Second.
  rewrite requests_exec_all by (unfold int_range; lia).
  apply wrap_int_id. unfold int_range. lia.
Qed.

Lemma counter_counts_operations_witness :
  min_int <= requests (server NewServer) /\
  requests (server NewServer) + Z.of_nat (length [OpPut payload_xy; OpGetAll; OpDelete "x"; OpStats]) <= max_int /\
  requests (server (Store.exec_all Second
                      [OpPut payload_xy; OpGetAll; OpDelete "x"; OpStats] NewServer)) = 4.
Proof.
  split; [by vm_compute|]. split; [by vm_compute|].
  rewrite (counter_counts_operations Second
             [OpPut payload_xy; OpGetAll; OpDelete "x"; OpStats] NewServer);
    [reflexivity|by vm_compute|by vm_compute].
Defined.

(** * Requests that are refused *)

(** In the first revision a body that does not decode has been counted. *)
Lemma bad_body_is_counted :
  let r := mkRequest MethodPost "/data" "" None in
  requests (server (run (postDataHandler First r) NewServer).1) = 1 /\
  requests (server (run (postDataHandler First r) NewServer).1)
    ≠ requests (server NewServer).
Proof. vm_compute. by split. Qed.

(** C4, revision by revision: when the body does not decode, the handler
    answers with a client error and the entries are untouched; the second
    revision has not taken the lock and the memory is as before, the first
    has counted the request, in the one critical section it has run, and
    done nothing else. *)
Theorem bad_body_is_refused (r : Request) (w : World) :
  Body r = None ->
  (let '(w', resp) := run (postDataHandler Second r) w in
   w' = w /\ client_error resp /\
   lock_count (postDataHandler Second r) w = 0%nat /\
   (Method r = MethodPost -> resp = http_Error "Invalid JSON" StatusBadRequest)) /\
  (let '(w', resp) := run (postDataHandler First r) w in
   w' = bump w /\ entries w' = entries w /\ heap w' = heap w /\
   resp = http_Error "failed json" StatusBadRequest /\ client_error resp /\
   lock_count (postDataHandler First r) w = 1%nat).
Proof.
  intros Hbody. split.
  - unfold postDataHandler, Rev2.postDataHandler. rewrite Hbody.
    destruct (String.eqb (Method r) MethodPost) eqn:Hm; simpl.
    + repeat split; unfold client_error, StatusBadRequest; simpl; lia.
    + repeat split; try (unfold client_error, StatusMethodNotAllowed; simpl; lia).
      intros Heq. apply String.eqb_neq in Hm. contradiction.
  - unfold postDataHandler, Rev1.postDataHandler. simpl. rewrite Hbody. simpl.
    repeat split; unfold client_error, StatusBadRequest; simpl; lia.
Qed.

Lemma bad_body_is_refused_witness :
  Body (mkRequest MethodPost "/api/data" "" None) = None /\
  (run (postDataHandler Second (mkRequest MethodPost "/api/data" "" None)) NewServer).1
  = NewServer.
Proof.
  split; [reflexivity|].
  pose proof (bad_body_is_refused (mkRequest MethodPost "/api/data" "" None)
                NewServer eq_refl) as [H _].
  destruct (run (postDataHandler Second (mkRequest MethodPost "/api/data" "" None))
              NewServer) as [w' resp].
  exact (proj1 H).
Defined.

(** Called with an empty key, which the mux in front of it never does, the
    handler of the first revision counts the request. *)
Lemma missing_key_is_counted :
  let r := mkRequest MethodDelete "/data/" "" None in
  path_key First r = "" /\
  requests (server (run (deleteDataHandler First r) NewServer).1) = 1 /\
  requests (server (run (deleteDataHandler First r) NewServer).1)
    ≠ requests (server NewServer).
Proof. vm_compute. by repeat split. Qed.

(** The handlers on their own, given a request without a key: the answer
    is a client error and the entries are untouched; the second revision has
    not taken the lock and the memory is as before, the first has counted
    the request, in the one critical section it has run, and done nothing
    else. *)
Theorem missing_key_is_refused (v : Revision) (r : Request) (w : World) :
  path_key v r = "" ->
  let '(w', resp) := run (deleteDataHandler v r) w in
  client_error resp /\ entries w' = entries w /\ heap w' = heap w /\
  match v with
  | First =>
      w' = bump w /\ resp = http_Error "missing key" StatusNotFound /\
      lock_count (deleteDataHandler v r) w = 1%nat
  | Second =>
      w' = w /\ lock_count (deleteDataHandler v r) w = 0%nat /\
      (Method r = MethodDelete ->
       resp = http_Error "Key not specified" StatusBadRequest)
  end.
Proof.
  intros Hkey. destruct v; simpl in Hkey.
  - unfold deleteDataHandler, Rev1.deleteDataHandler. simpl. rewrite Hkey. simpl.
    repeat split; unfold client_error, StatusNotFound; simpl; lia.
  - unfold deleteDataHandler, Rev2.deleteDataHandler.
    rewrite Hkey, String.eqb_refl, orb_true_r.
    destruct (String.eqb (Method r) MethodDelete) eqn:Hm; simpl.
    + repeat split; unfold client_error, StatusBadRequest; simpl; lia.
    + repeat split; try (unfold client_error, StatusMethodNotAllowed; simpl; lia).
      intros Heq. apply String.eqb_neq in Hm. contradiction.
Qed.

Lemma missing_key_is_refused_witness :
  path_key Second (mkRequest MethodDelete "/api/data/" "" None) = "" /\
  (run (deleteDataHandler Second (mkRequest MethodDelete "/api/data/" "" None))
       NewServer).1 = NewServer.
Proof.
  split; [reflexivity|].
  pose proof (missing_key_is_refused Second
                (mkRequest MethodDelete "/api/data/" "" None) NewServer eq_refl) as H.
  destruct (run (deleteDataHandler Second
                   (mkRequest MethodDelete "/api/data/" "" None)) NewServer)
    as [w' resp].
  destruct H as (_ & _ & _ & H & _). exact H.
Defined.

(** * The handlers and the store operations *)

(** A request that passes the checks of its handler runs the store
    operation, and the response is made of what the operation returns. *)
Lemma postDataHandler_runs_Put v r payload w :
  Body r = Some payload -> (v = Second -> Method r = MethodPost) ->
  run (postDataHandler v r) w =
  ((run (Store.Put v payload) w).1, encode_strings {[ "status" := "ok" ]}).
Proof.
  intros Hb Hm. destruct v.
  - unfold postDataHandler, Rev1.postDataHandler. simpl. by rewrite Hb.
  - unfold postDataHandler, Rev2.postDataHandler.
    rewrite (Hm eq_refl), String.eqb_refl, Hb. reflexivity.
Qed.

Lemma getDataHandler_runs_GetAll v r w :
  (v = Second -> Method r = MethodGet) ->
  run (getDataHandler v r) w =
  ((run (Store.GetAll v) w).1,
   encode_strings (table (heap (run (Store.GetAll v) w).1) (run (Store.GetAll v) w).2)).
Proof.
  intros Hm. destruct v.
  - reflexivity.
  - unfold getDataHandler, Rev2.getDataHandler.
    rewrite (Hm eq_refl), String.eqb_refl. reflexivity.
Qed.

Lemma deleteDataHandler_runs_Delete v r w :
  path_key v r ≠ "" -> (v = Second -> Method r = MethodDelete) ->
  run (deleteDataHandler v r) w =
  ((run (Store.Delete v (path_key v r)) w).1,
   if (run (Store.Delete v (path_key v r)) w).2
   then encode_strings {[ "deleted" := path_key v r ]}
   else http_Error (match v with First => "key not found" | Second => "Key not found" end)
                   StatusNotFound).
Proof.
  intros Hk Hm. destruct v; simpl in Hk.
  - unfold deleteDataHandler, Rev1.deleteDataHandler. simpl.
    apply String.eqb_neq in Hk. rewrite Hk.
    unfold Rev1.delete_key. simpl.
    by destruct (map_index _ _ _).
  - unfold deleteDataHandler, Rev2.deleteDataHandler.
    rewrite (Hm eq_refl), String.eqb_refl. simpl.
    assert (Hlen : (length (Split_slash (URLPath r)) <? 4)%nat = false).
    { apply Nat.ltb_ge. destruct (le_lt_dec 4 (length (Split_slash (URLPath r)))) as [|Hlt];
        [done|]. exfalso. apply Hk. apply nth_overflow. lia. }
    apply String.eqb_neq in Hk. rewrite Hlen, Hk. simpl.
    unfold Rev2.delete_key. simpl.
    by destruct (map_index _ _ _).
Qed.

Lemma statsHandler_runs_Stats v r w :
  (v = Second -> Method r = MethodGet) ->
  run (statsHandler v r) w =
  ((run (Store.Stats v) w).1,
   encode_ints (<[match v with First => "requests" | Second => "total_requests" end
                  := (run (Store.Stats v) w).2.1]>
                  (<["db_size" := (run (Store.Stats v) w).2.2]> ∅))).
Proof.
  intros Hm. destruct v.
  - reflexivity.
  - unfold statsHandler, Rev2.statsHandler.
    rewrite (Hm eq_refl), String.eqb_refl. reflexivity.
Qed.

(** * Delete *)

(** At the largest [int], [Delete] does not leave the counter one higher. *)
Lemma Delete_count_wraps :
  let w := set_requests max_int NewServer in
  requests (server (run (Store.Delete First "missing") w).1) = min_int /\
  requests (server (run (Store.Delete Second "missing") w).1) = min_int /\
  requests (server (run (Store.Delete Second "missing") w).1)
    ≠ requests (server w) + 1.
Proof. vm_compute. by repeat split. Qed.

(** C6, below the largest [int]: in either revision [Delete] of a key
    returns true exactly when the key was among the entries, leaves the
    entries without the key, and leaves the counter one higher whether the
    key was there or not.  On a new server, [Delete] of a missing key
    returns false and the size stays 0; after [Put] of a:1, [Delete] of a
    returns true and the size is 0 again. *)
Theorem Delete_reports_existence (v : Revision) (key : string) (w : World) :
  min_int <= requests (server w) < max_int ->
  (let '(w', existed) := run (Store.Delete v key) w in
   (existed = true <-> is_Some (entries w !! key)) /\
   entries w' = delete key (entries w) /\
   entries w' !! key = None /\
   requests (server w') = requests (server w) + 1 /\
   data (server w') = data (server w)) /\
  (let '(w', existed) := run (Store.Delete v "missing") NewServer in
   existed = false /\ size (entries w') = 0%nat) /\
  (let '(w1, _) := run (Store.Put v {[ "a" := "1" ]}) NewServer in
   let '(w2, existed) := run (Store.Delete v "a") w1 in
   size (entries w1) = 1%nat /\ existed = true /\ size (entries w2) = 0%nat).
Proof.
  intros Hr. split; [|split].
  - pose proof (entries_Delete key w) as He.
    rewrite Store_Delete_Second. rewrite run_Delete in *.
    cbn [fst snd server requests data] in *.
    split; [apply bool_decide_eq_true|].
    split; [done|]. split; [rewrite He; apply lookup_delete_eq|].
    split; [by apply bump_below_max|done].
  - clear. destruct v; vm_compute; by split.
  - clear. destruct v; vm_compute; by repeat split.
Qed.

Lemma Delete_reports_existence_witness :
  min_int <= requests (server NewServer) < max_int /\
  requests (server (run (Store.Delete Second "missing") NewServer).1) = 1.
Proof.
  split; [by vm_compute|].
  pose proof (Delete_reports_existence Second "missing" NewServer
                ltac:(by vm_compute)) as [H _].
  destruct (run (Store.Delete Second "missing") NewServer) as [w' existed].
  destruct H as (_ & _ & _ & H & _). exact H.
Defined.

(** * GetAll *)

Lemma lookup_assign_all_ne kvs : forall (h : Heap) m m',
  m ≠ m' -> assign_all m kvs h !! m' = h !! m'.
Proof.
  induction kvs as [|[k x] rest IHrest]; intros h m m' Hne; simpl; [done|].
  rewrite IHrest by done. unfold map_assign. by rewrite lookup_insert_ne.
Qed.

Lemma table_exec_all ops : forall w m,
  wf w -> m ∈ dom (heap w) -> m ≠ data (server w) ->
  table (heap (Rev2.exec_all ops w)) m = table (heap w) m.
Proof.
  induction ops as [|o ops IHops]; intros w m Hwf Hm Hne; [done|].
  change (Rev2.exec_all (o :: ops) w) with (Rev2.exec_all ops (Rev2.exec o w)).
  destruct (heap_exec o w m Hwf Hm) as [Hm' Ht].
  rewrite IHops; [by apply Ht|by apply wf_exec|done|by rewrite data_exec].
Qed.

(** The copy is a map of its own: a new address, not the store's. *)
Lemma GetAll_copy_is_new w :
  wf w ->
  ((run Rev2.GetAll w).2 ∉ dom (heap w)) /\
  (run Rev2.GetAll w).2 ∈ dom (heap (run Rev2.GetAll w).1) /\
  (run Rev2.GetAll w).2 ≠ data (server w).
Proof.
  intros Hwf. rewrite run_GetAll. cbn [heap server data fst snd].
  split; [apply make_map_fresh|]. split.
  - rewrite dom_assign_all; rewrite make_map_dom; set_solver.
  - intros Heq. apply (make_map_fresh (heap w)). by rewrite Heq.
Qed.

(** C7: in either revision the map that [GetAll] returns is a new one that
    holds the entries the store had at the call; writing to it or deleting
    from it leaves the entries of the store as they are, and whatever store
    operations follow ([Put] among them), it keeps the contents it had when
    it was returned. *)
Theorem GetAll_returns_independent_copy (v : Revision) (w : World) :
  wf w ->
  let '(w1, copy) := run (Store.GetAll v) w in
  (copy ∉ dom (heap w)) /\ copy ≠ data (server w1) /\
  table (heap w1) copy = entries w /\
  (forall k x, entries (with_heap (map_assign copy k x (heap w1)) w1) = entries w1) /\
  (forall k, entries (with_heap (map_delete copy k (heap w1)) w1) = entries w1) /\
  (forall payload,
     table (heap (run (Store.Put v payload) w1).1) copy = entries w) /\
  (forall ops, table (heap (Store.exec_all v ops w1)) copy = entries w).
Proof.
  intros Hwf. rewrite Store_GetAll_Second.
  pose proof (GetAll_copy_is_new w Hwf) as (Hfresh & Hin & Hne).
  pose proof (copy_GetAll w Hwf) as Hcopy.
  pose proof (wf_exec OpGetAll w Hwf) as Hwf1.
  pose proof (data_exec OpGetAll w) as Hdata.
  unfold Rev2.exec in Hwf1, Hdata.
  destruct (run Rev2.GetAll w) as [w1 copy]. cbn [fst snd] in *.
  assert (Hne1 : copy ≠ data (server w1)) by (by rewrite Hdata).
  assert (Hall : forall ops, table (heap (Rev2.exec_all ops w1)) copy = entries w).
  { intros ops. rewrite table_exec_all by done. exact Hcopy. }
  repeat split; try done.
  - intros k x. unfold entries. cbn [heap server with_heap].
    by apply table_map_assign_ne.
  - intros k. unfold entries. cbn [heap server with_heap].
    by apply table_map_delete_ne.
  - intros payload. rewrite Store_Put_Second. apply (Hall [OpPut payload]).
  - intros ops. rewrite Store_exec_all_Second. apply Hall.
Qed.

Lemma GetAll_returns_independent_copy_witness :
  wf NewServer /\
  (run (Store.GetAll First) NewServer).2 ≠
  data (server (run (Store.GetAll First) NewServer).1).
Proof.
  split; [exact wf_NewServer|].
  pose proof (GetAll_returns_independent_copy First NewServer wf_NewServer) as H.
  destruct (run (Store.GetAll First) NewServer) as [w1 copy].
  exact (proj1 (proj2 H)).
Defined.

(** * Put *)

(** Two [Put] from one below the largest [int]: the counter has wrapped. *)
Lemma Put_twice_count_wraps :
  let w := set_requests (max_int - 1) NewServer in
  let w2 := Store.exec_all Second [OpPut {[ "a" := "1" ]}; OpPut {[ "a" := "1" ]}] w in
  requests (server w2) = min_int /\ requests (server w2) ≠ requests (server w) + 2.
Proof. vm_compute. by split. Qed.

(** C8, as long as the counter stays within [int]: in either revision,
    after [Put] of a:1 the entry at a is 1, a second [Put] of a:1 leaves
    every entry as the first left it, and the counter is 2 higher than
    before the two calls; on a new server the entries are then a:1 and
    nothing else. *)
Theorem Put_twice_same_entries (v : Revision) (w : World) :
  min_int <= requests (server w) ->
  requests (server w) + 2 <= max_int ->
  (let '(w1, _) := run (Store.Put v {[ "a" := "1" ]}) w in
   let '(w2, _) := run (Store.Put v {[ "a" := "1" ]}) w1 in
   entries w1 !! "a" = Some "1" /\
   entries w2 !! "a" = Some "1" /\
   entries w2 = entries w1 /\
   requests (server w2) = requests (server w) + 2) /\
  (let '(w1, _) := run (Store.Put v {[ "a" := "1" ]}) NewServer in
   let '(w2, _) := run (Store.Put v {[ "a" := "1" ]}) w1 in
   entries w2 = {[ "a" := "1" ]} /\ requests (server w2) = 2).
Proof.
  intros Hlo Hhi. split.
  - pose proof (requests_exec_all [OpPut {[ "a" := "1" ]}; OpPut {[ "a" := "1" ]}] w)
      as Hreq.
    unfold Rev2.exec_all in Hreq. cbn [foldl Rev2.exec length] in Hreq.
    pose proof (entries_Put {[ "a" := "1" ]} w) as He1.
    pose proof (entries_Put {[ "a" := "1" ]} (run (Rev2.Put {[ "a" := "1" ]}) w).1) as He2.
    rewrite !Store_Put_Second.
    destruct (run (Rev2.Put {[ "a" := "1" ]}) w) as [w1 []]. cbn [fst] in *.
    rewrite !Store_Put_Second.
    destruct (run (Rev2.Put {[ "a" := "1" ]}) w1) as [w2 []]. cbn [fst] in *.
    assert (H12 : entries w2 = entries w1).
    { rewrite He2, He1. by rewrite (assoc_L (∪)), (idemp_L (∪)). }
    assert (H1 : entries w1 !! "a" = Some "1").
    { rewrite He1. apply lookup_union_Some_l. apply lookup_singleton_eq. }
    repeat split; [done|by rewrite H12|done|].
    rewrite Hreq by (unfold int_range, max_int, int_bits in *; lia).
    apply wrap_int_id. unfold int_range. cbn [Z.of_nat Pos.of_succ_nat Pos.succ]. lia.
  - clear. destruct v; vm_compute; by split.
Qed.

Lemma Put_twice_same_entries_witness :
  min_int <= requests (server NewServer) /\
  requests (server NewServer) + 2 <= max_int /\
  entries (run (Store.Put Second {[ "a" := "1" ]})
             (run (Store.Put Second {[ "a" := "1" ]}) NewServer).1).1
  = {[ "a" := "1" ]}.
Proof.
  split; [by vm_compute|]. split; [by vm_compute|].
  pose proof (Put_twice_same_entries Second NewServer
                ltac:(by vm_compute) ltac:(by vm_compute)) as [_ H].
  destruct (run (Store.Put Second {[ "a" := "1" ]}) NewServer) as [w1 u1].
  cbn [fst]. destruct (run (Store.Put Second {[ "a" := "1" ]}) w1) as [w2 u2].
  exact (proj1 H).
Defined.

(** * What the reads leave alone *)

(** C10: in either revision [GetAll] and [Stats] leave the entries of the
    store, and the map they live in, as they were.  [Stats] changes nothing
    but the counter; [GetAll] changes the counter and adds its copy to the
    heap, and the heap without the copy is the heap from before. *)
Theorem reads_leave_entries (v : Revision) (w : World) :
  (let '(w', copy) := run (Store.GetAll v) w in
   entries w' = entries w /\
   data (server w') = data (server w) /\
   delete copy (heap w') = heap w /\
   w' = set_requests (requests (server w')) (with_heap (heap w') w)) /\
  (let '(w', _) := run (Store.Stats v) w in
   entries w' = entries w /\
   data (server w') = data (server w) /\
   heap w' = heap w /\
   w' = set_requests (requests (server w')) w).
Proof.
  split.
  - pose proof (entries_GetAll w) as He.
    rewrite Store_GetAll_Second. rewrite run_GetAll in *.
    cbn [fst snd heap server data] in *.
    repeat split; [done|].
    apply map_eq. intros m.
    destruct (decide ((make_map (heap w)).2 = m)) as [<-|Hne].
    + rewrite lookup_delete_eq. symmetry. apply not_elem_of_dom, make_map_fresh.
    + rewrite lookup_delete_ne, lookup_assign_all_ne by done.
      unfold make_map. cbn [fst snd]. by rewrite lookup_insert_ne.
  - rewrite Store_Stats_Second, run_Stats. by repeat split.
Qed.

(** * The worker *)

Lemma returned_worker_is_silent turn es : forall s,
  worker_live s = false ->
  printed (run_events turn es s) = printed s /\
  worker_live (run_events turn es s) = false.
Proof.
  induction es as [|e es IHes]; intros s Hs; [done|].
  assert (Hstep : worker_live (step turn e s) = false /\
                  printed (step turn e s) = printed s).
  { destruct e; simpl; try done. by rewrite Hs. }
  destruct Hstep as [Hl Hp]. simpl.
  destruct (IHes (step turn e s) Hl) as [H1 H2]. by rewrite H1, Hp.
Qed.

(** The second revision prints the line with a capital R. *)
Lemma second_revision_line :
  printed (startBackgroundWorker Second [TickFires; Select TickerC] (started NewServer))
  = ["Current Requests: 0, Database size: 0" +:+ String "010" ""] /\
  printed (startBackgroundWorker Second [TickFires; Select TickerC] (started NewServer))
  ≠ ["Current requests: 0, Database size: 0" +:+ String "010" ""].
Proof. vm_compute. split; [reflexivity|discriminate]. Qed.

(** A tick that is already waiting when the channel is closed can still be
    the case that [select] takes. *)
Lemma waiting_tick_may_be_taken (v : Revision) :
  printed (startBackgroundWorker v [TickFires; CloseShutdown; Select TickerC]
             (started NewServer))
  = [status_line v 0 0].
Proof. by destruct v. Qed.

(** Once the channel is closed and no tick is waiting, the shutdown case is
    the only one [select] can take. *)
Lemma only_shutdown_can_proceed ch c :
  shutdown_closed ch = true -> tick_waiting ch = false ->
  can_proceed ch c = true <-> c = ShutdownCh.
Proof. intros Hc Ht. destruct c; simpl; rewrite ?Hc, ?Ht; split; done. Qed.

(** What departs from "a line on every tick, the notice and the end as soon
    as the channel is closed": the second revision writes the line with a
    capital R; a tick that fires while another is waiting is dropped, and a
    tick that is waiting when the worker takes the shutdown case is never
    reported; and a tick that is waiting when the channel is closed can
    still be the case that [select] takes, so that a status line follows
    the close while the worker is still running. *)
Lemma reporter_departs :
  printed (startBackgroundWorker Second [TickFires; Select TickerC] (started NewServer))
    ≠ ["Current requests: 0, Database size: 0" +:+ String "010" ""] /\
  (forall v,
     printed (startBackgroundWorker v
                [TickFires; TickFires; Select TickerC; Select TickerC]
                (started NewServer)) = [status_line v 0 0]) /\
  (forall v,
     printed (startBackgroundWorker v
                [TickFires; CloseShutdown; Select ShutdownCh; Select TickerC]
                (started NewServer)) = [stop_notice v]) /\
  (forall v,
     let s := startBackgroundWorker v [TickFires; CloseShutdown; Select TickerC]
                (started NewServer) in
     printed s = [status_line v 0 0] /\ worker_live s = true /\
     shutdown_closed (chans s) = true).
Proof.
  split; [vm_compute; discriminate|].
  repeat split; by destruct v.
Qed.

(** C9, with the texts of each revision and for the ticks the worker
    receives.  While the worker runs, each time its [select] receives a
    tick it prints exactly one line, "Current requests: R, Database size: S"
    in the first revision and "Current Requests: R, Database size: S" in the
    second, R and S being the counter and the number of entries read in one
    critical section, and the loop goes on; a tick that fires while another
    is waiting is dropped, and without a waiting tick the tick case is not
    taken.  Once the shutdown channel is closed and no tick is waiting, the
    shutdown case is the only one [select] can take; whenever the worker
    takes it, it prints the notice ("Worker stopped", "Worker Stopped"),
    which is no status line, and returns: whatever happens afterwards, it
    prints nothing more.  Before the channel is closed the shutdown case is
    not taken. *)
Theorem worker_reports_then_stops (v : Revision) (s : Sys) :
  worker_live s = true ->
  (tick_waiting (chans s) = true ->
   let s' := startBackgroundWorker v [Select TickerC] s in
   printed s' =
     printed s ++
     [match v with First => "Current requests: " | Second => "Current Requests: " end
      +:+ pretty (requests (server (mem s))) +:+ ", Database size: "
      +:+ pretty (Z.of_nat (size (entries (mem s)))) +:+ String "010" ""] /\
   mem s' = mem s /\ worker_live s' = true /\
   tick_waiting (chans s') = false /\
   shutdown_closed (chans s') = shutdown_closed (chans s) /\
   lock_count (worker_turn v TickerC) (mem s) = 1%nat) /\
  (let s' := startBackgroundWorker v [TickFires; Select TickerC] s in
   printed s' =
     printed s ++
     [match v with First => "Current requests: " | Second => "Current Requests: " end
      +:+ pretty (requests (server (mem s))) +:+ ", Database size: "
      +:+ pretty (Z.of_nat (size (entries (mem s)))) +:+ String "010" ""] /\
   mem s' = mem s /\ worker_live s' = true /\
   lock_count (worker_turn v TickerC) (mem s) = 1%nat) /\
  (tick_waiting (chans s) = true ->
   startBackgroundWorker v [TickFires] s = s) /\
  (tick_waiting (chans s) = false ->
   startBackgroundWorker v [Select TickerC] s = s) /\
  (shutdown_closed (chans s) = true ->
   let s' := startBackgroundWorker v [Select ShutdownCh] s in
   printed s' =
     printed s ++
     [match v with First => "Worker stopped" | Second => "Worker Stopped" end
      +:+ String "010" ""] /\
   mem s' = mem s /\ worker_live s' = false /\
   forall es, printed (startBackgroundWorker v es s') = printed s') /\
  (let s' := startBackgroundWorker v [CloseShutdown; Select ShutdownCh] s in
   printed s' =
     printed s ++
     [match v with First => "Worker stopped" | Second => "Worker Stopped" end
      +:+ String "010" ""] /\
   mem s' = mem s /\ worker_live s' = false /\
   forall es, printed (startBackgroundWorker v es s') = printed s') /\
  (shutdown_closed (chans s) = false ->
   startBackgroundWorker v [Select ShutdownCh] s = s) /\
  (shutdown_closed (chans s) = true -> tick_waiting (chans s) = false ->
   forall c,
     (can_proceed (chans s) c = true <-> c = ShutdownCh) /\
     (startBackgroundWorker v [Select c] s ≠ s ->
      c = ShutdownCh /\ worker_live (startBackgroundWorker v [Select c] s) = false)) /\
  (forall req size, stop_notice v ≠ status_line v req size).
Proof.
  intros Hlive.
  destruct s as [[tw cl] w live out]. simpl in Hlive. subst live.
  split. { simpl. intros ->. destruct v; simpl; by repeat split. }
  split. { destruct v; simpl; by repeat split. }
  split. { simpl. intros ->. by destruct v. }
  split. { simpl. intros ->. by destruct v. }
  split.
  { simpl. intros ->. destruct v; simpl; repeat split;
      intros es; by apply returned_worker_is_silent. }
  split.
  { destruct v; simpl; repeat split;
      intros es; by apply returned_worker_is_silent. }
  split. { simpl. intros ->. by destruct v. }
  split.
  { simpl. intros -> -> c. split.
    - destruct c; simpl; split; done.
    - destruct c; [by destruct v|]. intros _. split; [done|]. by destruct v. }
  intros req size. destruct v; discriminate.
Qed.

Lemma worker_reports_then_stops_witness :
  worker_live (started NewServer) = true /\
  printed (startBackgroundWorker First [TickFires; Select TickerC] (started NewServer))
  = ["Current requests: 0, Database size: 0" +:+ String "010" ""].
Proof.
  split; [reflexivity|].
  pose proof (worker_reports_then_stops First (started NewServer) eq_refl)
    as (_ & H & _).
  rewrite (proj1 H). reflexivity.
Defined.

(** * Concurrent callers *)

Lemma bumped_add a b z : bumped (a + b) z = bumped b (bumped a z).
Proof. unfold bumped. rewrite Nat.add_comm. apply Nat.iter_add. Qed.

Lemma bumped_within_int n : forall z,
  min_int <= z -> z + Z.of_nat n <= max_int -> bumped n z = z + Z.of_nat n.
Proof.
  induction n as [|n IHn]; intros z Hlo Hhi.
  - simpl. lia.
  - change (bumped (S n) z) with (wrap_int (bumped n z + 1)).
    rewrite IHn by lia. rewrite wrap_int_id by (unfold int_range; lia). lia.
Qed.

Lemma sum_list_insert_sub (ns : list nat) : forall i n d,
  ns !! i = Some n -> (d <= n)%nat ->
  (sum_list (<[i := (n - d)%nat]> ns) + d = sum_list ns)%nat.
Proof.
  induction ns as [|m ns IHns]; intros i n d Hi Hd; [done|].
  destruct i as [|i]; simpl in *.
  - injection Hi as ->. lia.
  - specialize (IHns i n d Hi Hd). lia.
Qed.

Lemma counts_finished {A} n (p : Prog A) : finished p = true -> counts n p -> n = O.
Proof. by destruct p. Qed.

Lemma counts_step {A} n (p : Prog A) w :
  counts n p ->
  exists d, (d <= n)%nat /\
    requests (server (step_thread p w).1) = bumped d (requests (server w)) /\
    counts (n - d) (step_thread p w).2.
Proof.
  destruct p as [a|B c k|B c k]; simpl.
  - intros ->. by exists O.
  - intros H. destruct (H w) as (d & Hd & Hr & Hc). exists d.
    destruct (c w) as [w' b]. by repeat split.
  - intros H. destruct (H w) as (d & Hd & Hr & Hc). exists d.
    destruct (c w) as [w' b]. by repeat split.
Qed.

(** However the steps of the goroutines are interleaved, the counter has
    gone up by what they have counted so far. *)
Lemma interleave_counts {A} sched : forall (pool : list (Prog A)) ns w,
  Forall2 counts ns pool ->
  exists ns',
    Forall2 counts ns' (interleave sched pool w).2 /\
    (sum_list ns' <= sum_list ns)%nat /\
    requests (server (interleave sched pool w).1) =
    bumped (sum_list ns - sum_list ns') (requests (server w)).
Proof.
  induction sched as [|i sched IHsched]; intros pool ns w Hall.
  - exists ns. simpl. repeat split; [done|lia|]. by rewrite Nat.sub_diag.
  - simpl. destruct (pool !! i) as [p|] eqn:Hp; [|by apply IHsched].
    destruct (Forall2_lookup_r _ _ _ _ _ Hall Hp) as (n & Hn & Hc).
    destruct (counts_step n p w Hc) as (d & Hd & Hr & Hc').
    destruct (step_thread p w) as [w' p']. cbn [fst snd] in *.
    assert (Hall' : Forall2 counts (<[i := (n - d)%nat]> ns) (<[i := p']> pool))
      by (by apply Forall2_insert).
    pose proof (sum_list_insert_sub ns i n d Hn Hd) as Hsum.
    destruct (IHsched _ _ w' Hall') as (ns' & Hf & Hle & Hreq).
    exists ns'. split; [done|]. split; [lia|].
    rewrite Hreq, Hr, <- bumped_add. f_equal. lia.
Qed.

(** When all of them have returned, the counter has gone up by what they
    count together. *)
Lemma interleave_counts_finished {A} sched (pool : list (Prog A)) ns w :
  Forall2 counts ns pool ->
  Forall (fun p => finished p = true) (interleave sched pool w).2 ->
  requests (server (interleave sched pool w).1) =
  bumped (sum_list ns) (requests (server w)).
Proof.
  intros Hall Hfin.
  destruct (interleave_counts sched pool ns w Hall) as (ns' & Hf & Hle & Hreq).
  assert (Hz : sum_list ns' = O).
  { clear Hreq Hle. induction Hf as [|n p ns' ps Hc Hf IHf]; [done|].
    apply Forall_cons in Hfin as [Hp Hfin].
    simpl. rewrite (counts_finished n p Hp Hc). by apply IHf. }
  rewrite Hreq, Hz. f_equal. lia.
Qed.

Ltac counted d :=
  simpl; intros ?; exists d; (split; [done|]); (split; [try done|]).

(** Every handler of the first revision counts its request once, whatever
    the request. *)
Lemma Rev1_handlers_count_once r :
  counts 1 (Rev1.postDataHandler r) /\ counts 1 (Rev1.getDataHandler r) /\
  counts 1 (Rev1.deleteDataHandler r) /\ counts 1 (Rev1.statsHandler r).
Proof.
  repeat split.
  - counted 1%nat. destruct (Body r); [|done]. by counted O.
  - counted 1%nat. counted O. by counted O.
  - counted 1%nat. destruct (_ =? _)%string; [done|]. counted O.
    + unfold Rev1.delete_key. by destruct (map_index _ _ _).
    + by match goal with |- context [negb ?b] => destruct b end.
  - counted 1%nat. counted O. done.
Qed.

(** A handler of the second revision counts the request it serves. *)
Lemma Rev2_handlers_count_once r payload :
  (Method r = MethodPost -> Body r = Some payload ->
   counts 1 (Rev2.postDataHandler r)) /\
  (Method r = MethodGet -> counts 1 (Rev2.getDataHandler r)) /\
  (Method r = MethodDelete -> path_key Second r ≠ "" ->
   counts 1 (Rev2.deleteDataHandler r)) /\
  (Method r = MethodGet -> counts 1 (Rev2.statsHandler r)).
Proof.
  repeat split.
  - intros Hm Hb. unfold Rev2.postDataHandler.
    rewrite Hm, String.eqb_refl, Hb. by counted 1%nat.
  - intros Hm. unfold Rev2.getDataHandler. rewrite Hm, String.eqb_refl.
    counted 1%nat. by counted O.
  - intros Hm Hk. unfold Rev2.deleteDataHandler.
    rewrite Hm, String.eqb_refl. simpl in Hk. simpl.
    assert (Hlen : (length (Split_slash (URLPath r)) <? 4)%nat = false).
    { apply Nat.ltb_ge. destruct (le_lt_dec 4 (length (Split_slash (URLPath r)))) as [|Hlt];
        [done|]. exfalso. apply Hk. apply nth_overflow. lia. }
    apply String.eqb_neq in Hk. rewrite Hlen, Hk. counted 1%nat.
    + unfold Rev2.delete_key. simpl. by destruct (map_index _ _ _).
    + by match goal with |- context [negb ?b] => destruct b end.
  - intros Hm. unfold Rev2.statsHandler. rewrite Hm, String.eqb_refl.
    counted 1%nat. done.
Qed.

Lemma sum_list_replicate_1 n : sum_list (replicate n 1%nat) = n.
Proof. induction n as [|n IHn]; [done|]. simpl. by rewrite IHn. Qed.

(** Requests served concurrently by the first revision: when all the
    handlers have returned, each request has been counted once, however
    their critical sections were interleaved. *)
Lemma Rev1_counts_concurrent_requests sched (pool : list (Prog Response)) w :
  Forall (fun p => exists r,
            p = Rev1.postDataHandler r \/ p = Rev1.getDataHandler r \/
            p = Rev1.deleteDataHandler r \/ p = Rev1.statsHandler r) pool ->
  Forall (fun p => finished p = true) (interleave sched pool w).2 ->
  min_int <= requests (server w) ->
  requests (server w) + Z.of_nat (length pool) <= max_int ->
  requests (server (interleave sched pool w).1) =
  requests (server w) + Z.of_nat (length pool).
Proof.
  intros Hpool Hfin Hlo Hhi.
  assert (Hall : Forall2 counts (replicate (length pool) 1%nat) pool).
  { clear Hfin Hhi. induction Hpool as [|p pool (r & Hp) _ IH]; [constructor|].
    simpl. constructor; [|exact IH].
    destruct (Rev1_handlers_count_once r) as (H1 & H2 & H3 & H4).
    by destruct Hp as [->|[->|[->| ->]]]. }
  rewrite (interleave_counts_finished sched pool _ w Hall Hfin).
  rewrite sum_list_replicate_1. by apply bumped_within_int.
Qed.

(** Two requests to the first revision with their critical sections
    interleaved: the count that [statsHandler] reports includes the request
    counted in between, and the size is the one of the same moment. *)
Lemma Rev1_interleaved_stats :
  let pool := [ Rev1.statsHandler (mkRequest MethodGet "/stats" "" None);
                Rev1.postDataHandler (mkRequest MethodPost "/data" "" (Some payload_xy)) ] in
  (interleave [0; 1; 1; 0]%nat pool NewServer).2 =
  [ Ret (encode_ints (<["requests" := 2]> (<["db_size" := 2]> ∅)));
    Ret (encode_strings {[ "status" := "ok" ]}) ].
Proof. vm_compute. reflexivity. Qed.

(** * New servers *)

(** X1: a server made by [NewServer] on any heap has a zero counter and no
    entries, its map is a new one (the heap without it is the heap from
    before), and the map of a second server made afterwards is another one:
    what is put into the second server leaves the first empty. *)
Theorem NewServer_owns_a_new_map (v : Revision) (h : Heap)
    (payload : gmap string string) :
  let w1 := NewServer_on h in
  let w2 := NewServer_on (heap w1) in
  requests (server w1) = 0 /\ entries w1 = ∅ /\ wf w1 /\
  (data (server w1) ∉ dom h) /\ delete (data (server w1)) (heap w1) = h /\
  data (server w2) ≠ data (server w1) /\
  entries (run (Store.Put v payload) w2).1 = payload /\
  table (heap (run (Store.Put v payload) w2).1) (data (server w1)) = ∅.
Proof.
  assert (Hnew : forall h0 : Heap,
    requests (server (NewServer_on h0)) = 0 /\ entries (NewServer_on h0) = ∅ /\
    wf (NewServer_on h0) /\ (data (server (NewServer_on h0)) ∉ dom h0) /\
    delete (data (server (NewServer_on h0))) (heap (NewServer_on h0)) = h0 /\
    dom (heap (NewServer_on h0)) = {[data (server (NewServer_on h0))]} ∪ dom h0).
  { intros h0. unfold NewServer_on, make_map, wf, entries. cbn [heap server data requests].
    repeat split.
    - apply table_insert_eq.
    - rewrite dom_insert_L. apply elem_of_union_l. by apply elem_of_singleton.
    - apply is_fresh.
    - rewrite delete_insert_eq. apply delete_id. apply not_elem_of_dom, is_fresh.
    - by rewrite dom_insert_L. }
  intros w1 w2.
  destruct (Hnew h) as (Hr1 & He1 & Hwf1 & Hf1 & Hd1 & Hdom1).
  destruct (Hnew (heap w1)) as (Hr2 & He2 & Hwf2 & Hf2 & Hd2 & Hdom2).
  fold w1 in Hr1, He1, Hwf1, Hf1, Hd1, Hdom1. fold w2 in Hr2, He2, Hwf2, Hf2, Hd2, Hdom2.
  assert (Hne : data (server w2) ≠ data (server w1)).
  { intros Heq. apply Hf2. rewrite Heq. exact Hwf1. }
  repeat split; try done.
  - rewrite Store_Put_Second, entries_Put, He2. by rewrite (right_id_L ∅ (∪)).
  - rewrite Store_Put_Second.
    destruct (heap_exec (OpPut payload) w2 (data (server w1)) Hwf2) as [_ Ht].
    { rewrite Hdom2. by apply elem_of_union_r. }
    unfold Rev2.exec in Ht. rewrite Ht by done.
    assert (Hold : table (heap w2) (data (server w1)) = table (heap w1) (data (server w1))).
    { unfold w2, NewServer_on. cbn [heap]. by apply make_map_table_old. }
    rewrite Hold. exact He1.
Qed.

(** * Merging *)

(** X2: in either revision [Put] leaves the entries of the payload over the
    old ones: a key of the payload has the payload's value, any other key
    what it had, so the keys are those of the payload and those from
    before; the store keeps its map. *)
Theorem Put_overwrites_and_keeps (v : Revision) (payload : gmap string string)
    (w : World) (k : string) :
  let w' := (run (Store.Put v payload) w).1 in
  entries w' = payload ∪ entries w /\
  entries w' !! k =
    match payload !! k with Some x => Some x | None => entries w !! k end /\
  dom (entries w') = dom payload ∪ dom (entries w) /\
  (size (entries w) <= size (entries w'))%nat /\
  data (server w') = data (server w).
Proof.
  intros w'. unfold w'. rewrite Store_Put_Second.
  pose proof (entries_Put payload w) as He. rewrite He.
  repeat split.
  - rewrite lookup_union. by destruct (payload !! k), (entries w !! k).
  - by rewrite dom_union_L.
  - rewrite <- !(size_dom (D:=gset string)), dom_union_L.
    apply subseteq_size, union_subseteq_r.
Qed.

(** X3: the [range] loops visit the entries of a map in an order Go does
    not fix; whatever order the loop of [postDataHandler] takes the payload
    in, the store's table ends up as [Put] leaves it. *)
Theorem merge_order_is_irrelevant (v : Revision) (payload : gmap string string)
    (kvs : list (string * string)) (w : World) :
  kvs ≡ₚ map_to_list payload ->
  table (assign_all (data (server w)) kvs (heap w)) (data (server w)) =
  entries (run (Store.Put v payload) w).1.
Proof.
  intros Hp. rewrite Store_Put_Second, entries_Put.
  by apply table_assign_all_any_order.
Qed.

Lemma merge_order_is_irrelevant_witness :
  reverse (map_to_list payload_xy) ≡ₚ map_to_list payload_xy /\
  table (assign_all (data (server NewServer)) (reverse (map_to_list payload_xy))
           (heap NewServer)) (data (server NewServer)) = payload_xy.
Proof.
  split; [apply reverse_Permutation|].
  rewrite (merge_order_is_irrelevant Second payload_xy
             (reverse (map_to_list payload_xy)) NewServer (reverse_Permutation _)).
  vm_compute. reflexivity.
Defined.

(** X4: a POST whose body decodes to the empty mapping is served like any
    other: the answer is the acknowledgement, the request is counted, and
    nothing else in the memory changes. *)
Theorem empty_payload_only_counts (v : Revision) (r : Request) (w : World) :
  Body r = Some ∅ -> (v = Second -> Method r = MethodPost) ->
  run (postDataHandler v r) w = (bump w, encode_strings {[ "status" := "ok" ]}).
Proof.
  intros Hb Hm. rewrite (postDataHandler_runs_Put v r ∅ w Hb Hm).
  rewrite Store_Put_Second, run_Put, map_to_list_empty. reflexivity.
Qed.

Lemma empty_payload_only_counts_witness :
  Body (mkRequest MethodPost "/api/data" "" (Some ∅)) = Some ∅ /\
  (Second = Second -> Method (mkRequest MethodPost "/api/data" "" (Some ∅)) = MethodPost) /\
  (run (postDataHandler Second (mkRequest MethodPost "/api/data" "" (Some ∅))) NewServer).1
  = bump NewServer.
Proof.
  split; [reflexivity|]. split; [reflexivity|].
  by rewrite (empty_payload_only_counts Second
                (mkRequest MethodPost "/api/data" "" (Some ∅)) NewServer
                eq_refl (fun _ => eq_refl)).
Defined.

(** * Round trips *)

(** X5: what a POST has merged, the next GET returns: the body of the
    answer is the payload over the entries from before, and both requests
    are answered with status 200. *)
Theorem post_then_get (v : Revision) (r1 r2 : Request)
    (payload : gmap string string) (w : World) :
  wf w -> Body r1 = Some payload ->
  (v = Second -> Method r1 = MethodPost /\ Method r2 = MethodGet) ->
  let '(w1, resp1) := run (postDataHandler v r1) w in
  let '(w2, resp2) := run (getDataHandler v r2) w1 in
  resp1 = encode_strings {[ "status" := "ok" ]} /\
  resp2 = encode_strings (payload ∪ entries w) /\
  entries w2 = payload ∪ entries w.
Proof.
  intros Hwf Hb Hm.
  rewrite (postDataHandler_runs_Put v r1 payload w Hb (fun e => proj1 (Hm e))).
  rewrite (getDataHandler_runs_GetAll v r2 _ (fun e => proj2 (Hm e))).
  rewrite Store_Put_Second, !Store_GetAll_Second.
  assert (Hwf1 : wf (run (Rev2.Put payload) w).1) by apply (wf_exec (OpPut payload) w Hwf).
  rewrite (copy_GetAll _ Hwf1), entries_GetAll, entries_Put. by repeat split.
Qed.

Lemma post_then_get_witness :
  wf NewServer /\
  (run (getDataHandler First (mkRequest MethodGet "/data" "" None))
       (run (postDataHandler First (mkRequest MethodPost "/data" "" (Some payload_xy)))
            NewServer).1).2
  = encode_strings payload_xy.
Proof.
  split; [exact wf_NewServer|].
  pose proof (post_then_get First (mkRequest MethodPost "/data" "" (Some payload_xy))
                (mkRequest MethodGet "/data" "" None) payload_xy NewServer
                wf_NewServer eq_refl ltac:(discriminate)) as H.
  destruct (run (postDataHandler First _) NewServer) as [w1 resp1]. cbn [fst].
  destruct (run (getDataHandler First _) w1) as [w2 resp2]. cbn [snd].
  destruct H as (_ & -> & _). vm_compute. reflexivity.
Defined.

(** X6: deleting a key twice: the second [Delete] returns false and changes
    no entry, whatever the first found. *)
Theorem Delete_twice (v : Revision) (key : string) (w : World) :
  let '(w1, _) := run (Store.Delete v key) w in
  let '(w2, existed) := run (Store.Delete v key) w1 in
  existed = false /\ entries w2 = entries w1 /\ entries w1 !! key = None.
Proof.
  rewrite Store_Delete_Second.
  pose proof (entries_Delete key w) as He1.
  destruct (run (Rev2.Delete key) w) as [w1 e1]. cbn [fst] in He1.
  rewrite Store_Delete_Second.
  pose proof (entries_Delete key w1) as He2. rewrite run_Delete in *.
  cbn [fst] in He2.
  assert (Hnone : entries w1 !! key = None) by (rewrite He1; apply lookup_delete_eq).
  repeat split; [|by rewrite He2, delete_id|done].
  apply bool_decide_eq_false_2. rewrite Hnone. by intros [? ?].
Qed.

(** X7: putting one new key and deleting it again gives back the entries
    from before, and the [Delete] returns true. *)
Theorem Put_then_Delete_restores (v : Revision) (key x : string) (w : World) :
  entries w !! key = None ->
  let '(w1, _) := run (Store.Put v {[ key := x ]}) w in
  let '(w2, existed) := run (Store.Delete v key) w1 in
  existed = true /\ entries w2 = entries w.
Proof.
  intros Hnone. rewrite Store_Put_Second.
  pose proof (entries_Put {[ key := x ]} w) as He1.
  destruct (run (Rev2.Put {[ key := x ]}) w) as [w1 u]. cbn [fst] in He1.
  rewrite Store_Delete_Second.
  pose proof (entries_Delete key w1) as He2. rewrite run_Delete in *.
  cbn [fst] in He2. split.
  - apply bool_decide_eq_true_2. rewrite He1. exists x.
    apply lookup_union_Some_l, lookup_singleton_eq.
  - rewrite He2, He1, <- insert_union_singleton_l, delete_insert_eq.
    by apply delete_id.
Qed.

Lemma Put_then_Delete_restores_witness :
  entries NewServer !! "a" = None /\
  entries (run (Store.Delete First "a")
             (run (Store.Put First {[ "a" := "1" ]}) NewServer).1).1
  = entries NewServer.
Proof.
  split; [by vm_compute|].
  pose proof (Put_then_Delete_restores First "a" "1" NewServer
                ltac:(by vm_compute)) as H.
  destruct (run (Store.Put First {[ "a" := "1" ]}) NewServer) as [w1 u]. cbn [fst].
  destruct (run (Store.Delete First "a") w1) as [w2 existed].
  exact (proj2 H).
Defined.

(** * What a handler does to the memory *)

Lemma long_enough (parts : list string) :
  nth 3 parts "" ≠ "" -> (length parts <? 4)%nat = false.
Proof.
  intros Hk. apply Nat.ltb_ge.
  destruct (le_lt_dec 4 (length parts)) as [|Hlt]; [done|].
  exfalso. apply Hk. apply nth_overflow. lia.
Qed.

(** A call the revision counts runs one store operation; a call it does not
    count leaves the memory as it is. *)
Lemma handler_effect v c w :
  (counted v c = true -> exists o, (run (handler v c) w).1 = Rev2.exec o w) /\
  (counted v c = false -> (run (handler v c) w).1 = w).
Proof.
  destruct v.
  - split; [intros _|done]. destruct c as [r|r|r|r]; simpl.
    + destruct (Body r) as [payload|]; [by exists (OpPut payload)|by exists OpStats].
    + by exists OpGetAll.
    + destruct (PathValue_key r =? "")%string eqn:Hk; [by exists OpStats|].
      exists (OpDelete (PathValue_key r)). unfold Rev2.exec.
      rewrite <- Delete_agree. unfold Rev1.Delete, Rev1.delete_key. simpl.
      by destruct (map_index _ _ _).
    + by exists OpStats.
  - destruct c as [r|r|r|r]; cbn [counted passes_checks handler postDataHandler
      getDataHandler deleteDataHandler statsHandler].
    + unfold Rev2.postDataHandler.
      destruct (Method r =? MethodPost)%string; simpl; [|by split].
      destruct (Body r) as [payload|]; split; try done.
      intros _. by exists (OpPut payload).
    + unfold Rev2.getDataHandler.
      destruct (Method r =? MethodGet)%string; simpl; split; try done.
      intros _. by exists OpGetAll.
    + unfold Rev2.deleteDataHandler, path_key.
      destruct (Method r =? MethodDelete)%string; simpl; [|by split].
      destruct (nth 3 (Split_slash (URLPath r)) "" =? "")%string eqn:Hk; simpl.
      * rewrite orb_true_r. by split.
      * apply String.eqb_neq in Hk. rewrite (long_enough _ Hk). simpl.
        split; [|done]. intros _.
        exists (OpDelete (nth 3 (Split_slash (URLPath r)) "")).
        unfold Rev2.exec, Rev2.Delete, Rev2.delete_key. simpl.
        by destruct (map_index _ _ _).
    + unfold Rev2.statsHandler.
      destruct (Method r =? MethodGet)%string; simpl; split; try done.
      intros _. by exists OpStats.
Qed.

(** X8: a handler of the second revision called with another method than
    its own answers 405 "Method not allowed" without taking the lock, and
    the memory is as before. *)
Theorem wrong_method_is_refused (c : Call) (w : World) :
  match c with
  | CallPost r => Method r ≠ MethodPost
  | CallGet r | CallStats r => Method r ≠ MethodGet
  | CallDelete r => Method r ≠ MethodDelete
  end ->
  run (handler Second c) w =
    (w, http_Error "Method not allowed" StatusMethodNotAllowed) /\
  lock_count (handler Second c) w = O.
Proof.
  destruct c as [r|r|r|r]; intros Hm; apply String.eqb_neq in Hm; simpl;
    [unfold Rev2.postDataHandler|unfold Rev2.getDataHandler
    |unfold Rev2.deleteDataHandler|unfold Rev2.statsHandler];
    by rewrite Hm.
Qed.

Lemma wrong_method_is_refused_witness :
  Method (mkRequest MethodGet "/api/data/x" "" None) ≠ MethodDelete /\
  (run (handler Second (CallDelete (mkRequest MethodGet "/api/data/x" "" None)))
       NewServer).1 = NewServer.
Proof.
  split; [discriminate|].
  by rewrite (proj1 (wrong_method_is_refused
                       (CallDelete (mkRequest MethodGet "/api/data/x" "" None))
                       NewServer ltac:(discriminate))).
Defined.

(** X9: no handler ever replaces or frees the store's map, and none writes
    to a map it did not make: after any call the memory is well formed, the
    store points to the same map, the maps that existed are still there, and
    those other than the store's hold what they held. *)
Theorem handlers_keep_the_map (v : Revision) (c : Call) (w : World) (m : addr) :
  wf w -> m ∈ dom (heap w) ->
  let w' := (run (handler v c) w).1 in
  wf w' /\ data (server w') = data (server w) /\ m ∈ dom (heap w') /\
  (m = data (server w) \/ table (heap w') m = table (heap w) m).
Proof.
  intros Hwf Hm w'. unfold w'.
  destruct (handler_effect v c w) as [Hyes Hno].
  destruct (counted v c).
  - destruct (Hyes eq_refl) as [o ->].
    destruct (heap_exec o w m Hwf Hm) as [Hin Ht].
    repeat split; [by apply wf_exec|apply data_exec|done|].
    destruct (decide (m = data (server w))); [by left|right; by apply Ht].
  - rewrite (Hno eq_refl). repeat split; try done. by right.
Qed.

Lemma handlers_keep_the_map_witness :
  wf NewServer /\ data (server NewServer) ∈ dom (heap NewServer) /\
  data (server (run (handler First (CallGet (mkRequest MethodGet "/data" "" None)))
                    NewServer).1) = data (server NewServer).
Proof.
  split; [exact wf_NewServer|]. split; [exact wf_NewServer|].
  exact (proj1 (proj2 (handlers_keep_the_map First
                         (CallGet (mkRequest MethodGet "/data" "" None))
                         NewServer _ wf_NewServer wf_NewServer))).
Defined.

(** X10: a DELETE that names a key is answered 200, with the key in the
    body, exactly when the key was among the entries, and 404 exactly when
    it was not; either way the entries are left without the key. *)
Theorem delete_answer_tells_presence (v : Revision) (r : Request) (w : World) :
  path_key v r ≠ "" -> (v = Second -> Method r = MethodDelete) ->
  let '(w', resp) := run (deleteDataHandler v r) w in
  (status resp = StatusOK <-> is_Some (entries w !! path_key v r)) /\
  (status resp = StatusNotFound <-> entries w !! path_key v r = None) /\
  (is_Some (entries w !! path_key v r) ->
   resp = encode_strings {[ "deleted" := path_key v r ]}) /\
  entries w' = delete (path_key v r) (entries w).
Proof.
  intros Hk Hm. rewrite (deleteDataHandler_runs_Delete v r w Hk Hm).
  rewrite Store_Delete_Second.
  pose proof (entries_Delete (path_key v r) w) as He.
  rewrite run_Delete in *. cbn [fst snd] in *.
  destruct (entries w !! path_key v r) as [x|] eqn:E.
  - rewrite bool_decide_eq_true_2 by eauto. repeat split; try done; eauto.
  - rewrite bool_decide_eq_false_2 by (by intros [? ?]).
    repeat split; try done; by intros [? ?].
Qed.

Lemma delete_answer_tells_presence_witness :
  path_key First (mkRequest MethodDelete "/data/x" "x" None) ≠ "" /\
  status (run (deleteDataHandler First (mkRequest MethodDelete "/data/x" "x" None))
              NewServer).2 = StatusNotFound.
Proof.
  split; [discriminate|].
  pose proof (delete_answer_tells_presence First
                (mkRequest MethodDelete "/data/x" "x" None) NewServer
                ltac:(discriminate) ltac:(discriminate)) as H.
  destruct (run (deleteDataHandler First _) NewServer) as [w' resp].
  apply (proj1 (proj2 H)). by vm_compute.
Defined.

(** * The key in the path *)

Lemma Split_slash_segment k : forall rest,
  no_slash k = true ->
  Split_slash (k +:+ "/" +:+ rest) = k :: Split_slash rest.
Proof.
  induction k as [|c k IHk]; intros rest Hk; [done|].
  simpl in Hk. apply andb_prop in Hk as [Hc Hk].
  apply negb_true_iff in Hc.
  change (String c k +:+ "/" +:+ rest) with (String c (k +:+ "/" +:+ rest)).
  cbn [Split_slash]. rewrite Hc. by rewrite IHk.
Qed.

Lemma Split_slash_no_slash k : no_slash k = true -> Split_slash k = [k].
Proof.
  induction k as [|c k IHk]; intros Hk; [done|].
  simpl in Hk. apply andb_prop in Hk as [Hc Hk].
  apply negb_true_iff in Hc. cbn [Split_slash]. rewrite Hc. by rewrite IHk.
Qed.

(** X11: the second revision takes as key what stands in the path after
    [/api/data/], up to the next slash: [DELETE /api/data/k] deletes k, and
    so does [DELETE /api/data/k/anything]. *)
Theorem path_names_the_key (r : Request) (k : string) (w : World) :
  Method r = MethodDelete -> no_slash k = true -> k ≠ "" ->
  (URLPath r = "/api/data/" +:+ k \/
   exists rest, URLPath r = "/api/data/" +:+ k +:+ "/" +:+ rest) ->
  path_key Second r = k /\
  entries (run (deleteDataHandler Second r) w).1 = delete k (entries w).
Proof.
  intros Hm Hns Hne Hpath.
  assert (Hkey : path_key Second r = k).
  { unfold path_key. destruct Hpath as [->|[rest ->]].
    - change ("/api/data/" +:+ k)
        with ("" +:+ "/" +:+ ("api" +:+ "/" +:+ ("data" +:+ "/" +:+ k))).
      rewrite !Split_slash_segment by done.
      by rewrite (Split_slash_no_slash k Hns).
    - change ("/api/data/" +:+ k +:+ "/" +:+ rest)
        with ("" +:+ "/" +:+ ("api" +:+ "/" +:+ ("data" +:+ "/" +:+ (k +:+ "/" +:+ rest)))).
      by rewrite !Split_slash_segment by done. }
  split; [done|].
  rewrite (deleteDataHandler_runs_Delete Second r w); rewrite ?Hkey; try done.
  cbn [fst]. rewrite Store_Delete_Second. apply entries_Delete.
Qed.

Lemma path_names_the_key_witness :
  let r := mkRequest MethodDelete "/api/data/x/y" "" None in
  Method r = MethodDelete /\ no_slash "x" = true /\ "x" ≠ "" /\
  (URLPath r = "/api/data/" +:+ "x" \/
   exists rest, URLPath r = "/api/data/" +:+ "x" +:+ "/" +:+ rest) /\
  path_key Second r = "x".
Proof.
  split; [reflexivity|]. split; [reflexivity|]. split; [discriminate|].
  split; [right; by exists "y"|].
  exact (proj1 (path_names_the_key (mkRequest MethodDelete "/api/data/x/y" "" None)
                  "x" NewServer eq_refl eq_refl ltac:(discriminate)
                  (or_intror (ex_intro _ "y" eq_refl)))).
Defined.

(** * The route of the second revision *)

(** X12: whatever request comes in on [/api/data], either it is answered
    with status 200 and has been counted once, or it is answered with a
    client error and the memory is as before; and only a POST changes the
    entries. *)
Theorem api_data_effects (r : Request) (w : World) :
  let '(w', resp) := run (api_data r) w in
  ((status resp = StatusOK /\
    requests (server w') = wrap_int (requests (server w) + 1)) \/
   (client_error resp /\ w' = w)) /\
  (Method r = MethodPost \/ entries w' = entries w).
Proof.
  unfold api_data.
  destruct (Method r =? MethodPost)%string eqn:Hpost.
  - apply String.eqb_eq in Hpost.
    destruct (Body r) as [payload|] eqn:Hb.
    + pose proof (postDataHandler_runs_Put Second r payload w Hb (fun _ => Hpost)) as H.
      cbn [postDataHandler] in H. rewrite H. split; [|by left].
      left. split; [done|]. rewrite Store_Put_Second. by rewrite run_Put.
    + unfold Rev2.postDataHandler. rewrite Hpost, Hb. simpl.
      split; [|by left]. right. split; [|done].
      unfold client_error. simpl. unfold StatusBadRequest. lia.
  - destruct (Method r =? MethodGet)%string eqn:Hget.
    + apply String.eqb_eq in Hget.
      pose proof (getDataHandler_runs_GetAll Second r w (fun _ => Hget)) as H.
      cbn [getDataHandler] in H. rewrite H.
      rewrite !Store_GetAll_Second. split.
      * left. split; [done|]. by rewrite run_GetAll.
      * right. apply entries_GetAll.
    + simpl. split; [|by right]. right. split; [|done].
      unfold client_error. simpl. unfold StatusMethodNotAllowed. lia.
Qed.

(** * The worker and the memory *)

Lemma worker_turn_reads_only v c w : (run (worker_turn v c) w).1 = w.
Proof. by destruct v, c. Qed.

(** X13: the worker only reads: whatever happens in the process, the memory
    is what the handlers served so far have made of it; a tick is not
    counted as a request. *)
Theorem worker_leaves_memory (v : Revision) (es : list Event) (s : Sys) :
  mem (startBackgroundWorker v es s) = served es (mem s).
Proof.
  assert (H : mem (run_events (worker_turn v) es s) = served es (mem s)).
  { revert s. induction es as [|e es IHes]; intros s; [done|].
    cbn [run_events served]. rewrite IHes.
    destruct e as [| |c|h]; cbn [step mem]; try done.
    destruct (worker_live s && can_proceed (chans s) c); [|done].
    pose proof (worker_turn_reads_only v c (mem s)) as Hw.
    destruct (run (worker_turn v c) (mem s)) as [w' [out again]].
    cbn [fst mem] in *. by rewrite Hw. }
  by destruct v.
Qed.

(** The lines printed so far are status lines, followed by the notice once
    the worker has returned; and it returns only after the channel was
    closed. *)
Lemma worker_log_step v e s :
  (exists lines, Forall (is_status_line v) lines /\
     printed s = lines ++ (if worker_live s then [] else [stop_notice v])) ->
  (worker_live s = false -> shutdown_closed (chans s) = true) ->
  (exists lines, Forall (is_status_line v) lines /\
     printed (step (worker_turn v) e s) =
     lines ++ (if worker_live (step (worker_turn v) e s) then [] else [stop_notice v])) /\
  (worker_live (step (worker_turn v) e s) = false ->
   shutdown_closed (chans (step (worker_turn v) e s)) = true).
Proof.
  intros (lines & Hall & Hp) Hc.
  destruct e as [| |c|h]; cbn [step].
  - split; [by exists lines|done].
  - split; [by exists lines|done].
  - destruct (worker_live s) eqn:Hl; cbn [andb].
    + destruct (can_proceed (chans s) c) eqn:Hcan.
      * rewrite (right_id_L [] (++)) in Hp.
        destruct c; simpl in Hcan.
        -- split.
           ++ exists (lines ++ [status_line v (requests (server (mem s)))
                          (map_len (data (server (mem s))) (heap (mem s)))]).
              destruct v; simpl; rewrite Hp, (right_id_L [] (++)); (split; [|done]);
              apply Forall_app; (split; [done|]); apply Forall_singleton.
              all: by eexists _, _.
           ++ by destruct v.
        -- split.
           ++ exists lines. by destruct v; simpl; rewrite Hp.
           ++ by destruct v.
      * split; [exists lines; by rewrite Hl|intros ?; congruence].
    + split; [exists lines; by rewrite Hl|intros _; by apply Hc].
  - split; [by exists lines|done].
Qed.

(** X14: what the worker prints, from its start on, is a run of status
    lines, then the shutdown notice once and last if it has returned; and
    it returns only after the shutdown channel was closed. *)
Theorem worker_log_shape (v : Revision) (es : list Event) (w : World) :
  let s := startBackgroundWorker v es (started w) in
  (exists lines, Forall (is_status_line v) lines /\
     printed s = lines ++ (if worker_live s then [] else [stop_notice v])) /\
  (worker_live s = false -> shutdown_closed (chans s) = true).
Proof.
  assert (H : forall es s,
    (exists lines, Forall (is_status_line v) lines /\
       printed s = lines ++ (if worker_live s then [] else [stop_notice v])) ->
    (worker_live s = false -> shutdown_closed (chans s) = true) ->
    (exists lines, Forall (is_status_line v) lines /\
       printed (run_events (worker_turn v) es s) =
       lines ++ (if worker_live (run_events (worker_turn v) es s)
                 then [] else [stop_notice v])) /\
    (worker_live (run_events (worker_turn v) es s) = false ->
     shutdown_closed (chans (run_events (worker_turn v) es s)) = true)).
  { clear es. induction es as [|e es IHes]; intros s H1 H2; [done|].
    cbn [run_events]. destruct (worker_log_step v e s H1 H2) as [H1' H2'].
    by apply IHes. }
  intros s. unfold s.
  replace (startBackgroundWorker v es (started w))
    with (run_events (worker_turn v) es (started w)) by (by destruct v).
  apply H; [by exists []|done].
Qed.

(** * Calls served concurrently *)

Lemma counts_handler v c : counts (count_of v c) (handler v c).
Proof.
  destruct v.
  - destruct c as [r|r|r|r]; apply (Rev1_handlers_count_once r).
  - unfold count_of, counted.
    destruct c as [r|r|r|r]; cbn [passes_checks handler postDataHandler
      getDataHandler deleteDataHandler statsHandler].
    + destruct (Method r =? MethodPost)%string eqn:Hm; simpl.
      * apply String.eqb_eq in Hm. destruct (Body r) as [payload|] eqn:Hb.
        -- by apply (Rev2_handlers_count_once r payload).
        -- unfold Rev2.postDataHandler. by rewrite Hm, Hb.
      * unfold Rev2.postDataHandler. by rewrite Hm.
    + destruct (Method r =? MethodGet)%string eqn:Hm.
      * apply String.eqb_eq in Hm. by apply (Rev2_handlers_count_once r ∅).
      * unfold Rev2.getDataHandler. by rewrite Hm.
    + destruct (Method r =? MethodDelete)%string eqn:Hm; simpl.
      * apply String.eqb_eq in Hm.
        unfold path_key.
        destruct (nth 3 (Split_slash (URLPath r)) "" =? "")%string eqn:Hk; simpl.
        -- unfold Rev2.deleteDataHandler. by rewrite Hm, Hk, orb_true_r.
        -- apply String.eqb_neq in Hk. by apply (Rev2_handlers_count_once r ∅).
      * unfold Rev2.deleteDataHandler. by rewrite Hm.
    + destruct (Method r =? MethodGet)%string eqn:Hm.
      * apply String.eqb_eq in Hm. by apply (Rev2_handlers_count_once r ∅).
      * unfold Rev2.statsHandler. by rewrite Hm.
Qed.

Lemma sum_count_of v calls :
  sum_list (count_of v <$> calls) =
  length (filter (fun c => counted v c = true) calls).
Proof.
  induction calls as [|c calls IHcalls]; [done|].
  rewrite fmap_cons, filter_cons. cbn [sum_list]. unfold count_of at 1.
  destruct (counted v c) eqn:Hc.
  - rewrite decide_True by done. simpl. by rewrite IHcalls.
  - rewrite decide_False by done. by rewrite IHcalls.
Qed.

(** X15: calls served concurrently: however the steps of their handlers are
    interleaved, once all have returned the counter has been incremented
    once for each call the revision counts (every call in the first, the
    calls that pass the checks in the second); within [int] it is the old
    value plus their number. *)
Theorem calls_are_counted_once (v : Revision) (calls : list Call)
    (sched : list nat) (w : World) :
  Forall (fun p => finished p = true)
         (interleave sched (handler v <$> calls) w).2 ->
  let n := length (filter (fun c => counted v c = true) calls) in
  requests (server (interleave sched (handler v <$> calls) w).1) =
    bumped n (requests (server w)) /\
  (min_int <= requests (server w) ->
   requests (server w) + Z.of_nat n <= max_int ->
   requests (server (interleave sched (handler v <$> calls) w).1) =
     requests (server w) + Z.of_nat n).
Proof.
  intros Hfin n.
  assert (Hall : Forall2 counts (count_of v <$> calls) (handler v <$> calls)).
  { clear. induction calls as [|c calls IHcalls]; [constructor|].
    rewrite !fmap_cons. constructor; [apply counts_handler|done]. }
  pose proof (interleave_counts_finished sched _ _ w Hall Hfin) as Hreq.
  rewrite sum_count_of in Hreq. fold n in Hreq.
  split; [done|]. intros Hlo Hhi. rewrite Hreq. by apply bumped_within_int.
Qed.

Lemma calls_are_counted_once_witness :
  let calls := [ CallStats (mkRequest MethodGet "/api/stats" "" None);
                 CallPost (mkRequest MethodPost "/api/data" "" None);
                 CallPost (mkRequest MethodPost "/api/data" "" (Some payload_xy)) ] in
  Forall (fun p => finished p = true)
         (interleave [2; 0; 1]%nat (handler Second <$> calls) NewServer).2 /\
  requests (server (interleave [2; 0; 1]%nat (handler Second <$> calls) NewServer).1)
  = bumped 2 0.
Proof.
  assert (Hfin : Forall (fun p => finished p = true)
     (interleave [2; 0; 1]%nat
        (handler Second <$>
           [ CallStats (mkRequest MethodGet "/api/stats" "" None);
             CallPost (mkRequest MethodPost "/api/data" "" None);
             CallPost (mkRequest MethodPost "/api/data" "" (Some payload_xy)) ])
        NewServer).2).
  { vm_compute. repeat constructor. }
  split; [exact Hfin|].
  exact (proj1 (calls_are_counted_once Second _ [2; 0; 1]%nat NewServer Hfin)).
Defined.

(** * A snapshot among other goroutines *)

Lemma atom_as_operation a w :
  exists o, heap (atom_run a w) = heap (Rev2.exec o w) /\
            data (server (atom_run a w)) = data (server (Rev2.exec o w)).
Proof.
  destruct a as [|payload| |key|].
  - by exists OpStats.
  - by exists (OpPut payload).
  - by exists OpGetAll.
  - exists (OpDelete key). unfold atom_run, Rev1.delete_key, Rev2.exec,
      Rev2.Delete, Rev2.delete_key. simpl. by destruct (map_index _ _ _).
  - by exists OpStats.
Qed.

Lemma others_keep atoms : forall w m,
  wf w -> m ∈ dom (heap w) -> m ≠ data (server w) ->
  wf (others atoms w) /\ data (server (others atoms w)) = data (server w) /\
  table (heap (others atoms w)) m = table (heap w) m.
Proof.
  induction atoms as [|a atoms IHatoms]; intros w m Hwf Hm Hne; [done|].
  change (others (a :: atoms) w) with (others atoms (atom_run a w)).
  destruct (atom_as_operation a w) as (o & Hh & Hd).
  destruct (heap_exec o w m Hwf Hm) as [Hin Ht].
  pose proof (wf_exec o w Hwf) as Hwf'. pose proof (data_exec o w) as Hd'.
  assert (Hwfa : wf (atom_run a w)) by (unfold wf in *; by rewrite Hh, Hd).
  destruct (IHatoms (atom_run a w) m Hwfa) as (H1 & H2 & H3).
  - by rewrite Hh.
  - by rewrite Hd, Hd'.
  - repeat split; [done|by rewrite H2, Hd, Hd'|].
    rewrite H3, Hh. by apply Ht.
Qed.

Lemma others_wf atoms w : wf w -> wf (others atoms w).
Proof.
  revert w. induction atoms as [|a atoms IHatoms]; intros w Hwf; [done|].
  change (others (a :: atoms) w) with (others atoms (atom_run a w)).
  apply IHatoms. destruct (atom_as_operation a w) as (o & Hh & Hd).
  pose proof (wf_exec o w Hwf) as Hwf'. unfold wf in *. by rewrite Hh, Hd.
Qed.

(** The copy section of the first revision, on a well-formed memory. *)
Lemma copy_data_snapshot w :
  wf w ->
  wf (Rev1.copy_data w).1 /\
  (Rev1.copy_data w).2 ∈ dom (heap (Rev1.copy_data w).1) /\
  (Rev1.copy_data w).2 ≠ data (server (Rev1.copy_data w).1) /\
  table (heap (Rev1.copy_data w).1) (Rev1.copy_data w).2 = entries w.
Proof.
  intros Hwf.
  destruct (GetAll_copy_is_new w Hwf) as (_ & Hin & Hne).
  pose proof (copy_GetAll w Hwf) as Hc.
  pose proof (wf_exec OpGetAll w Hwf) as Hwf'.
  by repeat split.
Qed.

(** X16: the answer to a GET is a snapshot: whatever critical sections
    other goroutines run before, between and after the steps of
    [getDataHandler], the body of the answer is the entries as they were
    when the handler made its copy; what is merged or deleted after that
    does not show in it. *)
Theorem get_answers_with_snapshot (v : Revision) (r : Request)
    (before between after : list Atom) (w : World) :
  wf w -> (v = Second -> Method r = MethodGet) ->
  (run_among (others <$> match v with
                         | First => [before; between; after]
                         | Second => [before; after]
                         end)
             (getDataHandler v r) w).2 =
  encode_strings
    (entries match v with
             | First => others between (bump (others before w))
             | Second => others before w
             end).
Proof.
  intros Hwf Hm. destruct v.
  - cbn [getDataHandler Rev1.getDataHandler run_among fmap list_fmap hd tl
         Rev1.incRequests].
    assert (Hwf1 : wf (others between (bump (others before w)))).
    { apply others_wf. by apply (others_wf before w). }
    destruct (copy_data_snapshot _ Hwf1) as (Hwf2 & Hin & Hne & Hc).
    destruct (Rev1.copy_data (others between (bump (others before w))))
      as [w2 copy]. cbn [fst snd] in *.
    destruct (others_keep after w2 copy Hwf2 Hin Hne) as (_ & _ & Ht).
    cbn [run_among snd]. by rewrite Ht, Hc.
  - cbn [getDataHandler]. unfold Rev2.getDataHandler.
    rewrite (Hm eq_refl), String.eqb_refl.
    cbn [negb run_among fmap list_fmap hd tl].
    assert (Hwf1 : wf (others before w)) by (by apply others_wf).
    destruct (GetAll_copy_is_new _ Hwf1) as (_ & Hin & Hne).
    pose proof (copy_GetAll _ Hwf1) as Hc.
    pose proof (wf_exec OpGetAll _ Hwf1) as Hwf2.
    pose proof (data_exec OpGetAll (others before w)) as Hd.
    unfold Rev2.exec in Hwf2, Hd.
    change (run Rev2.GetAll (others before w))
      with (Rev2.copy_data (others before w)) in *.
    destruct (Rev2.copy_data (others before w)) as [w2 copy]. cbn [fst snd] in *.
    destruct (others_keep after w2 copy Hwf2 Hin) as (_ & _ & Ht);
      [by rewrite Hd|].
    cbn [run_among snd]. by rewrite Ht, Hc.
Qed.

Lemma get_answers_with_snapshot_witness :
  wf NewServer /\
  (run_among (others <$> [[AMerge payload_xy]; [AIncrement]; [ADelete "x"; AMerge {[ "z" := "3" ]}]])
             (getDataHandler First (mkRequest MethodGet "/data" "" None)) NewServer).2
  = encode_strings payload_xy.
Proof.
  split; [exact wf_NewServer|].
  rewrite (get_answers_with_snapshot First (mkRequest MethodGet "/data" "" None)
             [AMerge payload_xy] [AIncrement] [ADelete "x"; AMerge {[ "z" := "3" ]}]
             NewServer wf_NewServer ltac:(discriminate)).
  vm_compute. reflexivity.
Defined.

(** * The size of the store *)

(** X17: the size that [Stats] reports follows the keys: after [Put] of one
    key it is one more if the key is new and the same if the key was there
    (the value is overwritten), after [Delete] it is one less if the key
    was there and the same if not. *)
Theorem size_follows_the_keys (v : Revision) (key x : string) (w : World) :
  let present := bool_decide (is_Some (entries w !! key)) in
  let size_after (w' : World) := (run (Store.Stats v) w').2.2 in
  size_after (run (Store.Put v {[ key := x ]}) w).1 =
    (if present then size_after w else size_after w + 1) /\
  size_after (run (Store.Delete v key) w).1 =
    (if present then size_after w - 1 else size_after w).
Proof.
  intros present size_after. unfold size_after, present.
  rewrite !Store_Stats_Second, !run_Stats. cbn [snd].
  rewrite Store_Put_Second, Store_Delete_Second, entries_Put, entries_Delete.
  rewrite <- insert_union_singleton_l.
  destruct (entries w !! key) as [y|] eqn:E.
  - rewrite bool_decide_eq_true_2 by eauto. split.
    + by rewrite (map_size_insert_Some key x (entries w)) by eauto.
    + rewrite (map_size_delete_Some key (entries w)) by eauto.
      assert (size (entries w) ≠ O).
      { apply map_size_non_empty_iff. intros Hempty. by rewrite Hempty in E. }
      lia.
  - rewrite bool_decide_eq_false_2 by (by intros [? ?]). split.
    + rewrite (map_size_insert_None key x (entries w)) by done. lia.
    + by rewrite (map_size_delete_None key (entries w)) by done.
Qed.

(** * Which calls are counted *)

(** X18: in the second revision a call that passes the checks of its
    handler is counted once and answered 200 or 404; any other call is
    answered 400 or 405 and leaves the memory as it was. *)
Theorem counted_iff_served (c : Call) (w : World) :
  let '(w', resp) := run (handler Second c) w in
  if passes_checks c
  then (status resp = StatusOK \/ status resp = StatusNotFound) /\
       requests (server w') = wrap_int (requests (server w) + 1)
  else (status resp = StatusBadRequest \/ status resp = StatusMethodNotAllowed) /\
       w' = w.
Proof.
  destruct c as [r|r|r|r]; cbn [passes_checks handler postDataHandler
    getDataHandler deleteDataHandler statsHandler].
  - unfold Rev2.postDataHandler.
    destruct (Method r =? MethodPost)%string; simpl; [|by split; [right|]].
    destruct (Body r); simpl; [by split; [left|]|by split; [left|]].
  - unfold Rev2.getDataHandler.
    destruct (Method r =? MethodGet)%string; simpl; [|by split; [right|]].
    by split; [left|].
  - unfold Rev2.deleteDataHandler, path_key.
    destruct (Method r =? MethodDelete)%string; simpl; [|by split; [right|]].
    destruct (nth 3 (Split_slash (URLPath r)) "" =? "")%string eqn:Hk; simpl.
    + rewrite orb_true_r. by split; [left|].
    + apply String.eqb_neq in Hk. rewrite (long_enough _ Hk). simpl.
      unfold Rev2.delete_key. simpl.
      destruct (map_index _ _ _); simpl; by split; [(left + right)|].
  - unfold Rev2.statsHandler.
    destruct (Method r =? MethodGet)%string; simpl; [|by split; [right|]].
    by split; [left|].
Qed.

(** * Shutting down *)

Lemma closed_stays_closed turn es : forall s,
  shutdown_closed (chans s) = true ->
  shutdown_closed (chans (run_events turn es s)) = true.
Proof.
  induction es as [|e es IHes]; intros s Hc; [done|].
  cbn [run_events]. apply IHes.
  destruct e as [| |c|h]; cbn [step chans shutdown_closed]; try done.
  destruct (worker_live s && can_proceed (chans s) c); [|done].
  destruct (run (turn c) (mem s)) as [w' [out again]].
  cbn [chans]. by destruct c.
Qed.

Lemma run_events_app turn es es' s :
  run_events turn (es ++ es') s = run_events turn es' (run_events turn es s).
Proof. revert s. induction es as [|e es IHes]; intros s; [done|]. apply IHes. Qed.

Lemma startBackgroundWorker_runs v es s :
  startBackgroundWorker v es s = run_events (worker_turn v) es s.
Proof. by destruct v. Qed.

(** X19: the shutdown channel is never reopened, so once [main] has closed
    it the worker can always take the shutdown case: whatever happens in
    between, the next time it does so it prints the notice (if it has not
    already) and has returned. *)
Theorem closed_channel_stops_worker (v : Revision) (es : list Event) (s : Sys) :
  let s1 := startBackgroundWorker v (CloseShutdown :: es) s in
  let s2 := startBackgroundWorker v (CloseShutdown :: es ++ [Select ShutdownCh]) s in
  shutdown_closed (chans s1) = true /\
  worker_live s2 = false /\
  printed s2 = printed s1 ++ (if worker_live s1 then [stop_notice v] else []).
Proof.
  intros s1 s2.
  assert (Hrun : s2 = step (worker_turn v) (Select ShutdownCh) s1).
  { unfold s1, s2. rewrite !startBackgroundWorker_runs.
    by rewrite app_comm_cons, run_events_app. }
  assert (Hc : shutdown_closed (chans s1) = true).
  { unfold s1. rewrite startBackgroundWorker_runs.
    by apply (closed_stays_closed _ es). }
  split; [done|]. rewrite Hrun. cbn [step]. simpl can_proceed. rewrite Hc.
  destruct (worker_live s1) eqn:Hl; simpl.
  - destruct v; by split.
  - split; [done|]. by rewrite (right_id_L [] (++)).
Qed.

(** * A DELETE without a key, at the entrypoint *)

(** The wildcard binds the segment after [/data/], and nothing when that
    segment is empty. *)
Lemma wildcard_key_segment k :
  no_slash k = true ->
  wildcard_key ("/data/" +:+ k) = if String.eqb k "" then None else Some k.
Proof.
  intros Hk. unfold wildcard_key.
  change ("/data/" +:+ k) with ("" +:+ "/" +:+ ("data" +:+ "/" +:+ k)).
  rewrite !Split_slash_segment by done. rewrite (Split_slash_no_slash k Hk).
  simpl. by destruct (k =? "")%string.
Qed.

Lemma wildcard_key_nonempty path key : wildcard_key path = Some key -> key ≠ "".
Proof.
  unfold wildcard_key.
  destruct (Split_slash path) as [|root [|dir [|k [|? ?]]]]; try done.
  destruct (root =? "")%string; [|done]. destruct (dir =? "data")%string; [|done].
  destruct (k =? "")%string eqn:Hk; [done|]. simpl.
  intros [= <-]. by apply String.eqb_neq.
Qed.

(** Behind the mux the handler never sees an empty key: a request either
    is answered without any handler, or goes to another handler, or reaches
    [deleteDataHandler] with the non-empty key of its path. *)
Lemma main_mux_binds_a_key r :
  (exists resp, main_mux r = Ret resp /\ client_error resp) \/
  main_mux r = Rev1.postDataHandler r \/
  main_mux r = Rev1.getDataHandler r \/
  main_mux r = Rev1.statsHandler r \/
  (exists key, key ≠ "" /\ wildcard_key (URLPath r) = Some key /\
     main_mux r =
     Rev1.deleteDataHandler (mkRequest (Method r) (URLPath r) key (Body r))).
Proof.
  assert (H405 : client_error (http_Error "Method Not Allowed" StatusMethodNotAllowed))
    by (unfold client_error, StatusMethodNotAllowed; simpl; lia).
  assert (H404 : client_error (http_Error "404 page not found" StatusNotFound))
    by (unfold client_error, StatusNotFound; simpl; lia).
  unfold main_mux.
  destruct (URLPath r =? "/data")%string.
  { destruct (Method r =? MethodPost)%string; [by right; left|].
    destruct ((Method r =? MethodGet)%string || (Method r =? "HEAD")%string);
      [by right; right; left|left; by eexists]. }
  destruct (URLPath r =? "/stats")%string.
  { destruct ((Method r =? MethodGet)%string || (Method r =? "HEAD")%string);
      [by right; right; right; left|left; by eexists]. }
  destruct (wildcard_key (URLPath r)) as [key|] eqn:Hk; [|left; by eexists].
  destruct (Method r =? MethodDelete)%string; [|left; by eexists].
  right; right; right; right. exists key.
  split; [by apply (wildcard_key_nonempty (URLPath r))|done].
Qed.


